(** * 5G RF signal heatmap: a shallow embedding of [5G.py]

    The script computes, for every visible tower of a USD stage, a
    ring-sampled cloud of coloured points and then prints statistics
    recovered from the colours.

    Modelling conventions.
    - Python floats are read as exact numbers.  Wherever the script
      only adds, multiplies, divides and compares, the numbers are
      rationals ([Q], compared with [==]).  The two planar coordinates
      of a sample go through [math.cos] and [math.sin]; they are real
      numbers, obtained from the rational operands with [Q2R].
      The rounding of double precision arithmetic, NaN and infinities
      are outside this reading.
    - A position kept in a [Gf.Vec3f] (a tower, a sample point) is
      stored in single precision: each coordinate is rounded to the
      nearest binary32 value, ties to even ([f32Q], [f32]).  The
      channels of a colour are kept as computed, which is the exact
      reading the statements on colours ask for; their storage moves
      a channel by at most 2^-25.
    - Python exceptions are values of [exn]; a computation that can
      raise returns a [result].
    - [random.uniform] draws from an injected source, so every theorem
      quantifies over all possible draws.
    - The stage is a list of prims plus the point-cloud prim at
      [/World/Signal_Visualizer].  Console output is not modelled. *)

From Stdlib Require Import QArith Qabs Qround Qpower Lqa ZArith Lia List.
From Stdlib Require Import String Bool.
From Stdlib Require Import Reals Lra Qreals.
Import ListNotations.

Local Open Scope Q_scope.

(** ** Exceptions and results *)

Inductive exn : Type :=
| ZeroDivisionError
| ValueError.

Inductive result (A : Type) : Type :=
| Ok (a : A)
| Raise (e : exn).

Arguments Ok {A} a.
Arguments Raise {A} e.

Definition is_ok {A : Type} (x : result A) : bool :=
  match x with
  | Ok _ => true
  | Raise _ => false
  end.

(** ** Float primitives of the interpreter *)

Module Py.

(** [a < b] *)
Definition ltb (a b : Q) : bool :=
  (Qnum a * QDen b <? Qnum b * QDen a)%Z.

(** [a == b] *)
Definition eqb (a b : Q) : bool := Qeq_bool a b.

(** [a <= b] *)
Definition leb (a b : Q) : bool := Qle_bool a b.

(** Two-argument [max(a, b)]: the first argument is kept unless the
    second is strictly larger. *)
Definition max (a b : Q) : Q := if ltb a b then b else a.

(** Two-argument [min(a, b)]: the first argument is kept unless the
    second is strictly smaller. *)
Definition min (a b : Q) : Q := if ltb b a then b else a.

(** True division [a / b]; a zero divisor raises. *)
Definition div (a b : Q) : result Q :=
  if eqb b 0 then Raise ZeroDivisionError else Ok (a / b).

End Py.

(** ** Colours *)

Record color : Type := Vec3f { red : Q; green : Q; blue : Q }.

Definition color_eq (c d : color) : Prop :=
  red c == red d /\ green c == green d /\ blue c == blue d.

Infix "=c=" := color_eq (at level 70, no associativity).

(** ** [calculate_gradient_color] *)

(** Body of the [signal_strength > 50.0] branch. *)
Definition strong_branch (signal_strength : Q) : color :=
  let normalized := (signal_strength - 50) / 50 in
  Vec3f (1 - normalized) 1 0.

(** Body of the [else] branch. *)
Definition weak_branch (signal_strength : Q) : color :=
  let normalized := signal_strength / 50 in
  Vec3f 1 normalized 0.

Definition calculate_gradient_color (signal_strength : Q) : color :=
  let signal_strength := Py.max 0 (Py.min 100 signal_strength) in
  if Py.ltb 50 signal_strength
  then strong_branch signal_strength
  else weak_branch signal_strength.

(** ** [calculate_signal_strength] *)

Definition calculate_signal_strength
    (distance max_distance min_distance : Q) : result Q :=
  let distance := Py.max min_distance (Py.min max_distance distance) in
  match Py.div (100 * (max_distance - distance))
               (max_distance - min_distance) with
  | Raise e => Raise e
  | Ok signal_strength => Ok (Py.max 0 (Py.min 100 signal_strength))
  end.

(** ** Recovering a strength from a colour (statistics stage) *)

Definition reverse_signal (c : color) : Q :=
  let r := red c in
  let g := green c in
  if Py.eqb g 1 && Py.ltb r 1
  then 50 + (1 - r) * 50
  else g * 50.

(** ** The random source

    [random.random()] reads the next value of an injected sequence;
    [random.uniform(a, b)] is [a + (b - a) * random()]. *)

Record rng : Type := { draws : nat -> Q; cursor : nat }.

Definition random (g : rng) : Q * rng :=
  (draws g (cursor g), {| draws := draws g; cursor := S (cursor g) |}).

Definition uniform (a b : Q) (g : rng) : Q * rng :=
  let (u, g') := random g in (a + (b - a) * u, g').

(** The double nearest to pi, [math.pi]. *)
Definition math_pi : Q := 884279719003555 # 281474976710656.

(** ** Single precision storage

    A binary32 value has 24 significant bits, so a number of
    magnitude [2^e <= |x| < 2^(e+1)] is stored on the grid of step
    [2^(e-23)], and on the grid of step [2^-149] below [2^-126].
    Magnitudes from [2^128] on, which the conversion turns into
    infinities, are outside the model. *)

(** Nearest integer, ties to the even one. *)
Definition round_half_even (t : Q) : Z :=
  let n := Qfloor t in
  match Qcompare (t - inject_Z n) (1 # 2) with
  | Lt => n
  | Gt => (n + 1)%Z
  | Eq => if Z.even n then n else (n + 1)%Z
  end.

(** [floor (log2 |x|)] of a rational other than 0. *)
Definition Qmag (x : Q) : Z :=
  let e := (Z.log2 (Z.abs (Qnum x)) - Z.log2 (Z.pos (Qden x)))%Z in
  if Qle_bool (2 ^ e) (Qabs x) then e else (e - 1)%Z.

(** Exponent of the grid step for a number of magnitude [mag]. *)
Definition ulp_exponent32 (mag : Z) : Z := Z.max (mag - 23) (-149).

(** The binary32 value a rational is stored as. *)
Definition f32Q (x : Q) : Q :=
  let e := ulp_exponent32 (Qmag x) in
  Qred (inject_Z (round_half_even (x / 2 ^ e)) * 2 ^ e).

(** The same on real numbers. *)
Definition Rround_half_even (t : R) : Z :=
  let n := Int_part t in
  if Rlt_dec (t - IZR n) (1 / 2) then n
  else if Rlt_dec (1 / 2) (t - IZR n) then (n + 1)%Z
  else if Z.even n then n else (n + 1)%Z.

Definition Rmag (x : R) : Z := Int_part (ln (Rabs x) / ln 2).

Definition f32 (x : R) : R :=
  let e := ulp_exponent32 (Rmag x) in
  (IZR (Rround_half_even (x / powerRZ 2 e)) * powerRZ 2 e)%R.

(** ** Scene data *)

(** Three floats: a translation as it is extracted, or a tower
    position as its [Gf.Vec3f] holds it. *)
Record vec3 : Type := GfVec3f { at0 : Q; at1 : Q; at2 : Q }.

(** An emitted sample position.  The planar coordinates involve
    [math.cos] and [math.sin]. *)
Record point : Type := Point { px : R; py : R; pz : Q }.

(** [Gf.Vec3f(x, y, z)] on computed coordinates: what is kept of
    them. *)
Definition Vec3f_of (q : point) : point :=
  Point (f32 (px q)) (f32 (py q)) (f32Q (pz q)).

Inductive visibility : Type :=
| inherited
| invisible.

Record prim : Type := {
  GetName : string;
  IsA_Xformable : bool;
  GetVisibility : visibility;
  ExtractTranslation : vec3
}.

(** The [UsdGeom.Points] prim at [/World/Signal_Visualizer]; an
    attribute nobody has set is [None]. *)
Record points_prim : Type := {
  visibility_attr : visibility;
  points_attr : option (list point);
  display_color_attr : option (list color);
  widths_attr : option (list Q)
}.

Record stage : Type := {
  prims : list prim;
  visualizer : option points_prim
}.

(** The module-level configuration, also written by the sliders. *)
Record config : Type := {
  MAX_SIGNAL_RANGE : Q;
  MIN_SIGNAL_RANGE : Q;
  POINTS_PER_TOWER : Z;
  POINT_SIZE : Q
}.

Definition default_config : config :=
  {| MAX_SIGNAL_RANGE := 150;
     MIN_SIGNAL_RANGE := 5;
     POINTS_PER_TOWER := 400;
     POINT_SIZE := 4 |}.

(** ** Scanning for visible towers *)

(** [needle in hay] on strings. *)
Fixpoint str_in (needle hay : string) : bool :=
  if String.prefix needle hay then true
  else match hay with
       | EmptyString => false
       | String _ rest => str_in needle rest
       end.

Definition visibility_eqb (a b : visibility) : bool :=
  match a, b with
  | inherited, inherited => true
  | invisible, invisible => true
  | _, _ => false
  end.

Fixpoint scan_towers (traverse : list prim) : list vec3 :=
  match traverse with
  | [] => []
  | p :: rest =>
      if str_in "Tower" (GetName p) && IsA_Xformable p then
        if visibility_eqb (GetVisibility p) invisible
        then scan_towers rest
        else
          let trans := ExtractTranslation p in
          GfVec3f (f32Q (at0 trans)) (f32Q (at1 trans))
                  (f32Q (at2 trans + 5))
          :: scan_towers rest
      else scan_towers rest
  end.

(** ** The generation loops

    The loops share three pieces of mutable state: the random source
    and the two output lists.  A raised exception abandons them. *)

Record gen_state : Type := {
  rand : rng;
  final_points : list point;
  final_colors : list color
}.

Definition M (A : Type) : Type := gen_state -> result (A * gen_state).

Definition ret {A : Type} (a : A) : M A := fun st => Ok (a, st).

Definition bind {A B : Type} (c : M A) (k : A -> M B) : M B :=
  fun st =>
    match c st with
    | Raise e => Raise e
    | Ok (a, st') => k a st'
    end.

Notation "x <- c ;; k" := (bind c (fun x => k))
  (at level 61, c at next level, right associativity).
Notation "c ;;; k" := (bind c (fun _ => k))
  (at level 61, right associativity).

(** Lifts a computation that may raise. *)
Definition try_ {A : Type} (x : result A) : M A :=
  fun st =>
    match x with
    | Raise e => Raise e
    | Ok a => Ok (a, st)
    end.

Definition random_uniform (a b : Q) : M Q :=
  fun st =>
    let (v, g) := uniform a b (rand st) in
    Ok (v, {| rand := g;
              final_points := final_points st;
              final_colors := final_colors st |}).

Definition append_point (p : point) : M unit :=
  fun st =>
    Ok (tt, {| rand := rand st;
               final_points := final_points st ++ [p];
               final_colors := final_colors st |}).

Definition append_color (c : color) : M unit :=
  fun st =>
    Ok (tt, {| rand := rand st;
               final_points := final_points st;
               final_colors := final_colors st ++ [c] |}).

Fixpoint for_each {A : Type} (l : list A) (body : A -> M unit) : M unit :=
  match l with
  | [] => ret tt
  | x :: rest => body x ;;; for_each rest body
  end.

(** [range(n)] for an integer [n]; empty when [n <= 0]. *)
Definition range (n : Z) : list nat := seq 0 (Z.to_nat n).

Definition num_rings : Z := 20.

(** Body of the innermost loop: one sample. *)
Definition sample_body (origin : vec3) (base_height dist : Q)
    (max_range min_range : Q) : M unit :=
  angle <- random_uniform 0 (2 * math_pi) ;;
  jitter <- random_uniform (-5) 5 ;;
  let actual_dist := dist + jitter in
  let actual_dist := Py.max min_range (Py.min max_range actual_dist) in
  let target_x := (Q2R (at0 origin) + Q2R actual_dist * cos (Q2R angle))%R in
  let target_y := (Q2R (at1 origin) + Q2R actual_dist * sin (Q2R angle))%R in
  signal_strength <-
    try_ (calculate_signal_strength actual_dist max_range min_range) ;;
  let color := calculate_gradient_color signal_strength in
  z_offset <-
    (if Py.ltb 50 signal_strength
     then (u <- random_uniform (-5) 5 ;; ret (-25 + u))
     else (u <- random_uniform (-10) 10 ;; ret (-10 + u))) ;;
  let target_z := base_height + z_offset in
  append_point (Vec3f_of (Point target_x target_y target_z)) ;;;
  append_color color.

(** Body of the ring loop. *)
Definition ring_body (origin : vec3) (base_height : Q)
    (points_per_ring : Z) (max_range min_range : Q) (ring_idx : nat)
    : M unit :=
  ring_progress <-
    (if (1 <? num_rings)%Z
     then try_ (Py.div (inject_Z (Z.of_nat ring_idx))
                       (inject_Z (num_rings - 1)))
     else ret 0) ;;
  let dist := min_range + (max_range - min_range) * ring_progress in
  for_each (range points_per_ring)
    (fun _ => sample_body origin base_height dist max_range min_range).

(** Body of the tower loop. *)
Definition tower_body (points_per_tower : Z) (max_range min_range : Q)
    (origin : vec3) : M unit :=
  let base_height := at2 origin - 5 in
  let points_per_ring := (points_per_tower / num_rings)%Z in
  for_each (range num_rings)
    (ring_body origin base_height points_per_ring max_range min_range).

Definition generate_points (cfg : config) (tower_positions : list vec3)
    : M unit :=
  let points_per_tower := POINTS_PER_TOWER cfg in
  let max_range := MAX_SIGNAL_RANGE cfg in
  let min_range := MIN_SIGNAL_RANGE cfg in
  for_each tower_positions
    (tower_body points_per_tower max_range min_range).

(** ** Statistics *)

(** [min(l)] of a list: raises on the empty list, otherwise keeps the
    first element unless a later one is strictly smaller. *)
Definition min_list (l : list Q) : result Q :=
  match l with
  | [] => Raise ValueError
  | x :: rest => Ok (fold_left Py.min rest x)
  end.

(** [max(l)] of a list. *)
Definition max_list (l : list Q) : result Q :=
  match l with
  | [] => Raise ValueError
  | x :: rest => Ok (fold_left Py.max rest x)
  end.

(** [sum(l)], starting from [0]. *)
Definition sum_list (l : list Q) : Q := fold_left Qplus l 0.

(** [sum(1 for s in l if test(s))] *)
Definition count_if (test : Q -> bool) (l : list Q) : nat :=
  List.length (filter test l).

Definition is_red (s : Q) : bool := Py.ltb s 33.
Definition is_yellow (s : Q) : bool := Py.leb 33 s && Py.ltb s 66.
Definition is_green (s : Q) : bool := Py.leb 66 s.

Definition len {A : Type} (l : list A) : Q :=
  inject_Z (Z.of_nat (List.length l)).

Record report : Type := {
  min_signal : Q;
  max_signal : Q;
  avg_signal : Q;
  red_count : nat;
  yellow_count : nat;
  green_count : nat;
  total_points : nat;
  red_percent : Q;
  yellow_percent : Q;
  green_percent : Q
}.

Definition nat_Q (n : nat) : Q := inject_Z (Z.of_nat n).

(** Binding in the plain error monad. *)
Definition and_then {A B : Type} (x : result A) (k : A -> result B)
    : result B :=
  match x with
  | Raise e => Raise e
  | Ok a => k a
  end.

Notation "x <-- c ;; k" := (and_then c (fun x => k))
  (at level 61, c at next level, right associativity).

(** The statistics block that follows the write of the arrays. *)
Definition statistics (points : list point) (colors : list color)
    : result report :=
  let all_signals := map reverse_signal colors in
  mn <-- min_list all_signals ;;
  mx <-- max_list all_signals ;;
  avg <-- Py.div (sum_list all_signals) (len all_signals) ;;
  let reds := count_if is_red all_signals in
  let yellows := count_if is_yellow all_signals in
  let greens := count_if is_green all_signals in
  let total := List.length points in
  rp <-- Py.div (nat_Q reds) (nat_Q total) ;;
  yp <-- Py.div (nat_Q yellows) (nat_Q total) ;;
  gp <-- Py.div (nat_Q greens) (nat_Q total) ;;
  Ok {| min_signal := mn;
        max_signal := mx;
        avg_signal := avg;
        red_count := reds;
        yellow_count := yellows;
        green_count := greens;
        total_points := total;
        red_percent := rp * 100;
        yellow_percent := yp * 100;
        green_percent := gp * 100 |}.

(** ** [generate_heatmap] *)

(** The prim right after [RemovePrim] and [UsdGeom.Points.Define]. *)
Definition fresh_points_prim : points_prim :=
  {| visibility_attr := inherited;
     points_attr := None;
     display_color_attr := None;
     widths_attr := None |}.

Definition set_visualizer (s : stage) (v : points_prim) : stage :=
  {| prims := prims s; visualizer := Some v |}.

Definition initial_gen_state (g : rng) : gen_state :=
  {| rand := g; final_points := []; final_colors := [] |}.

(** One pass.  The returned stage is the stage as the pass leaves it,
    also when the pass ends in an exception; the second component is
    how the call ends: [Ok None] on the no-tower path, [Ok (Some r)]
    with the printed statistics otherwise. *)
Definition generate_heatmap (cfg : config) (g : rng) (s : stage)
    : stage * result (option report) :=
  let tower_positions := scan_towers (prims s) in
  match tower_positions with
  | [] =>
      (set_visualizer s
         {| visibility_attr := invisible;
            points_attr := Some [];
            display_color_attr := Some [];
            widths_attr := widths_attr fresh_points_prim |},
       Ok None)
  | _ :: _ =>
      let shown :=
        {| visibility_attr := inherited;
           points_attr := points_attr fresh_points_prim;
           display_color_attr := display_color_attr fresh_points_prim;
           widths_attr := widths_attr fresh_points_prim |} in
      match generate_points cfg tower_positions (initial_gen_state g) with
      | Raise e => (set_visualizer s shown, Raise e)
      | Ok (_, st) =>
          let num_points := List.length (final_points st) in
          let written :=
            {| visibility_attr := inherited;
               points_attr := Some (final_points st);
               display_color_attr := Some (final_colors st);
               widths_attr := Some (repeat (POINT_SIZE cfg) num_points) |} in
          match statistics (final_points st) (final_colors st) with
          | Raise e => (set_visualizer s written, Raise e)
          | Ok r => (set_visualizer s written, Ok (Some r))
          end
      end
  end.

(** ** Notions used by the statements *)

(** The points the display object holds after a pass (none when the
    attribute was never written). *)
Definition emitted_points (s : stage) : list point :=
  match visualizer s with
  | Some v =>
      match points_attr v with
      | Some l => l
      | None => []
      end
  | None => []
  end.

(** Distance in the (x, y) plane between a sample and a tower. *)
Definition planar_distance (origin : vec3) (p : point) : R :=
  sqrt ((px p - Q2R (at0 origin)) * (px p - Q2R (at0 origin))
        + (py p - Q2R (at1 origin)) * (py p - Q2R (at1 origin))).

Definition within_range (min_range max_range : Q) (origin : vec3)
    (p : point) : Prop :=
  (Q2R min_range <= planar_distance origin p <= Q2R max_range)%R.

(** A scene with a single visible tower at the origin. *)
Definition tower_at_origin : prim :=
  {| GetName := "Tower_01";
     IsA_Xformable := true;
     GetVisibility := inherited;
     ExtractTranslation := GfVec3f 0 0 0 |}.

Definition one_tower_stage : stage :=
  {| prims := [tower_at_origin]; visualizer := None |}.

Definition empty_stage : stage :=
  {| prims := []; visualizer := None |}.

(** A source whose every draw is one half. *)
Definition half_rng : rng := {| draws := fun _ => 1 # 2; cursor := 0 |}.

(** Two colours differ by less than [eps] in every channel. *)
Definition color_close (eps : Q) (c d : color) : Prop :=
  Qabs (red c - red d) < eps /\
  Qabs (green c - green d) < eps /\
  Qabs (blue c - blue d) < eps.

(** A state change that appends [k] points, all satisfying [P], and
    [k] colours. *)
Definition grows (k : nat) (P : point -> Prop) (st st' : gen_state)
    : Prop :=
  exists pts cs,
    final_points st' = final_points st ++ pts /\
    final_colors st' = final_colors st ++ cs /\
    List.length pts = k /\
    List.length cs = k /\
    Forall P pts.

(** A point emitted by the sample loop around [origin]: the storage
    of a position [q] placed at a clamped distance, in some
    direction. *)
Definition sampled (max_range min_range : Q) (origin : vec3) (p : point)
    : Prop :=
  exists (q : point) (d angle : Q),
    p = Vec3f_of q /\
    px q = (Q2R (at0 origin)
            + Q2R (Py.max min_range (Py.min max_range d))
              * cos (Q2R angle))%R /\
    py q = (Q2R (at1 origin)
            + Q2R (Py.max min_range (Py.min max_range d))
              * sin (Q2R angle))%R.

(** Number of points one tower contributes. *)
Definition points_of_tower (points_per_tower : Z) : nat :=
  (Z.to_nat num_rings * Z.to_nat (points_per_tower / num_rings))%nat.

(** The slider configuration with both ranges at 50 m. *)
Definition degenerate_config : config :=
  {| MAX_SIGNAL_RANGE := 50;
     MIN_SIGNAL_RANGE := 50;
     POINTS_PER_TOWER := 100;
     POINT_SIZE := 4 |}.

(** Two samples per ring, five left over. *)
Definition small_config : config :=
  {| MAX_SIGNAL_RANGE := 150;
     MIN_SIGNAL_RANGE := 5;
     POINTS_PER_TOWER := 45;
     POINT_SIZE := 4 |}.

(** Fewer samples than rings. *)
Definition sparse_config : config :=
  {| MAX_SIGNAL_RANGE := 150;
     MIN_SIGNAL_RANGE := 5;
     POINTS_PER_TOWER := 19;
     POINT_SIZE := 4 |}.

(** ** The control window

    [create_control_window] builds four sliders; each has a callback
    that stores the slider's value in the matching global, and the
    button calls [generate_heatmap].  Labels are not modelled. *)

Record float_slider : Type := { float_min : Q; float_max : Q }.

Record int_slider : Type := { int_min : Z; int_max : Z }.

Definition max_range_slider : float_slider :=
  {| float_min := 50; float_max := 2000 |}.

Definition min_range_slider : float_slider :=
  {| float_min := 1; float_max := 50 |}.

Definition points_slider : int_slider :=
  {| int_min := 100; int_max := 4000 |}.

Definition size_slider : float_slider :=
  {| float_min := 1; float_max := 10 |}.

Definition on_max_range_changed (as_float : Q) (cfg : config) : config :=
  {| MAX_SIGNAL_RANGE := as_float;
     MIN_SIGNAL_RANGE := MIN_SIGNAL_RANGE cfg;
     POINTS_PER_TOWER := POINTS_PER_TOWER cfg;
     POINT_SIZE := POINT_SIZE cfg |}.

Definition on_min_range_changed (as_float : Q) (cfg : config) : config :=
  {| MAX_SIGNAL_RANGE := MAX_SIGNAL_RANGE cfg;
     MIN_SIGNAL_RANGE := as_float;
     POINTS_PER_TOWER := POINTS_PER_TOWER cfg;
     POINT_SIZE := POINT_SIZE cfg |}.

Definition on_points_changed (as_int : Z) (cfg : config) : config :=
  {| MAX_SIGNAL_RANGE := MAX_SIGNAL_RANGE cfg;
     MIN_SIGNAL_RANGE := MIN_SIGNAL_RANGE cfg;
     POINTS_PER_TOWER := as_int;
     POINT_SIZE := POINT_SIZE cfg |}.

Definition on_size_changed (as_float : Q) (cfg : config) : config :=
  {| MAX_SIGNAL_RANGE := MAX_SIGNAL_RANGE cfg;
     MIN_SIGNAL_RANGE := MIN_SIGNAL_RANGE cfg;
     POINTS_PER_TOWER := POINTS_PER_TOWER cfg;
     POINT_SIZE := as_float |}.

(** What the user can do in the window.  A click on the button comes
    with the state the random source has at that moment. *)
Inductive ui_event : Type :=
| MaxRangeChanged (as_float : Q)
| MinRangeChanged (as_float : Q)
| PointsChanged (as_int : Z)
| SizeChanged (as_float : Q)
| RefreshClicked (g : rng).

(** The globals, the stage, and how the last pass ended. *)
Record session : Type := {
  globals : config;
  usd_stage : stage;
  last_outcome : result (option report)
}.

Definition on_refresh_clicked (g : rng) (ss : session) : session :=
  let (s', outcome) := generate_heatmap (globals ss) g (usd_stage ss) in
  {| globals := globals ss; usd_stage := s'; last_outcome := outcome |}.

Definition set_globals (cfg : config) (ss : session) : session :=
  {| globals := cfg;
     usd_stage := usd_stage ss;
     last_outcome := last_outcome ss |}.

Definition handle (ss : session) (e : ui_event) : session :=
  match e with
  | MaxRangeChanged v => set_globals (on_max_range_changed v (globals ss)) ss
  | MinRangeChanged v => set_globals (on_min_range_changed v (globals ss)) ss
  | PointsChanged n => set_globals (on_points_changed n (globals ss)) ss
  | SizeChanged v => set_globals (on_size_changed v (globals ss)) ss
  | RefreshClicked g => on_refresh_clicked g ss
  end.

(** Running the script: the globals take their defaults and the last
    line makes the first pass. *)
Definition run_script (g : rng) (s : stage) : session :=
  on_refresh_clicked g
    {| globals := default_config; usd_stage := s; last_outcome := Ok None |}.

Definition in_float_slider (sl : float_slider) (v : Q) : Prop :=
  float_min sl <= v /\ v <= float_max sl.

Definition in_int_slider (sl : int_slider) (n : Z) : Prop :=
  (int_min sl <= n /\ n <= int_max sl)%Z.

(** The event carries a value its slider can show. *)
Definition within_slider (e : ui_event) : Prop :=
  match e with
  | MaxRangeChanged v => in_float_slider max_range_slider v
  | MinRangeChanged v => in_float_slider min_range_slider v
  | PointsChanged n => in_int_slider points_slider n
  | SizeChanged v => in_float_slider size_slider v
  | RefreshClicked _ => True
  end.

Definition within_sliders (cfg : config) : Prop :=
  in_float_slider max_range_slider (MAX_SIGNAL_RANGE cfg) /\
  in_float_slider min_range_slider (MIN_SIGNAL_RANGE cfg) /\
  in_int_slider points_slider (POINTS_PER_TOWER cfg) /\
  in_float_slider size_slider (POINT_SIZE cfg).

(** ** Notions used by the further statements *)

(** The colours and widths the display object holds after a pass. *)
Definition emitted_colors (s : stage) : list color :=
  match visualizer s with
  | Some v =>
      match display_color_attr v with
      | Some l => l
      | None => []
      end
  | None => []
  end.

Definition emitted_widths (s : stage) : list Q :=
  match visualizer s with
  | Some v =>
      match widths_attr v with
      | Some l => l
      | None => []
      end
  | None => []
  end.

(** A colour of the unit cube lying on the red-yellow-green path. *)
Definition on_gradient (c : color) : Prop :=
  0 <= red c <= 1 /\ 0 <= green c <= 1 /\ blue c == 0 /\
  (red c == 1 \/ green c == 1).

(** Every draw of the source lies between 0 and 1. *)
Definition unit_draws (draw : nat -> Q) : Prop :=
  forall n, 0 <= draw n <= 1.

(** The value of [random.uniform(a, b)] on the draw [u]. *)
Definition uniform_value (a b u : Q) : Q := a + (b - a) * u.

(** Base distance of a ring. *)
Definition ring_distance (max_range min_range : Q) (ring_idx : nat) : Q :=
  min_range
  + (max_range - min_range)
    * (inject_Z (Z.of_nat ring_idx) / inject_Z (num_rings - 1)).

(** Distance of the sample of ring [ring_idx] that starts reading the
    random source at position [n]. *)
Definition sample_distance (draw : nat -> Q) (max_range min_range : Q)
    (ring_idx n : nat) : Q :=
  Py.max min_range
    (Py.min max_range
       (ring_distance max_range min_range ring_idx
        + uniform_value (-5) 5 (draw (S n)))).

(** [p] and [c] are the point and the colour of the sample of ring
    [ring_idx] around [origin] that starts reading the random source
    at position [n]; [q] is the position before it is stored. *)
Definition sample_at (draw : nat -> Q) (origin : vec3)
    (max_range min_range : Q) (ring_idx n : nat) (p : point) (c : color)
    : Prop :=
  let angle := uniform_value 0 (2 * math_pi) (draw n) in
  let actual_dist := sample_distance draw max_range min_range ring_idx n in
  exists signal_strength,
    calculate_signal_strength actual_dist max_range min_range
    = Ok signal_strength /\
    c = calculate_gradient_color signal_strength /\
    exists q,
      p = Vec3f_of q /\
      px q = (Q2R (at0 origin) + Q2R actual_dist * cos (Q2R angle))%R /\
      py q = (Q2R (at1 origin) + Q2R actual_dist * sin (Q2R angle))%R /\
      pz q = at2 origin - 5
             + (if Py.ltb 50 signal_strength
                then -25 + uniform_value (-5) 5 (draw (S (S n)))
                else -10 + uniform_value (-10) 10 (draw (S (S n)))).

(** A state change that appends [k] samples, each pair of a point and
    its colour satisfying [P], reads three draws per sample and leaves
    the sequence of draws as it is. *)
Definition emits (k : nat) (P : point -> color -> Prop)
    (st st' : gen_state) : Prop :=
  exists pts cs,
    final_points st' = final_points st ++ pts /\
    final_colors st' = final_colors st ++ cs /\
    List.length pts = k /\
    Forall2 P pts cs /\
    draws (rand st') = draws (rand st) /\
    cursor (rand st') = (cursor (rand st) + 3 * k)%nat.

(** A sample of some ring around some tower of the list. *)
Definition tower_sample (draw : nat -> Q) (max_range min_range : Q)
    (towers : list vec3) (p : point) (c : color) : Prop :=
  exists origin ring_idx n,
    In origin towers /\
    (ring_idx < 20)%nat /\
    sample_at draw origin max_range min_range ring_idx n p c.

(** The tower a prim becomes when the scan keeps it: its translation
    raised by 5, as a [Gf.Vec3f] stores it. *)
Definition tower_of (p : prim) : vec3 :=
  GfVec3f (f32Q (at0 (ExtractTranslation p)))
          (f32Q (at1 (ExtractTranslation p)))
          (f32Q (at2 (ExtractTranslation p) + 5)).

(** The scan keeps the prim. *)
Definition is_visible_tower (p : prim) : Prop :=
  (exists before after,
     GetName p = (before ++ "Tower" ++ after)%string) /\
  IsA_Xformable p = true /\
  GetVisibility p <> invisible.

(** A stage whose only tower is hidden, beside a prim that is no
    tower. *)
Definition hidden_tower_stage : stage :=
  {| prims :=
       [ {| GetName := "Tower_02";
            IsA_Xformable := true;
            GetVisibility := invisible;
            ExtractTranslation := GfVec3f 10 20 0 |};
         {| GetName := "GroundPlane";
            IsA_Xformable := true;
            GetVisibility := inherited;
            ExtractTranslation := GfVec3f 0 0 0 |} ];
     visualizer := None |}.

(** Dragging both range sliders to 50 and the density to its
    minimum, then refreshing. *)
Definition corner_events : list ui_event :=
  [MaxRangeChanged 50; MinRangeChanged 50; PointsChanged 100;
   RefreshClicked half_rng].

(** The session right after the script ran on the one-tower stage. *)
Definition started_session : session :=
  run_script half_rng one_tower_stage.

(** A source whose every draw is 0: angle 0 and jitter -5. *)
Definition zero_rng : rng := {| draws := fun _ => 0; cursor := 0 |}.

(** One sample per ring. *)
Definition coarse_config : config :=
  {| MAX_SIGNAL_RANGE := 150;
     MIN_SIGNAL_RANGE := 5;
     POINTS_PER_TOWER := 20;
     POINT_SIZE := 4 |}.

(** The same with a negative minimum range. *)
Definition negative_config : config :=
  {| MAX_SIGNAL_RANGE := 5;
     MIN_SIGNAL_RANGE := -10;
     POINTS_PER_TOWER := 20;
     POINT_SIZE := 4 |}.

(** A tower far from the origin, at x = 8388607.5, where binary32
    values are half a unit apart below and one unit apart above
    8388608. *)
Definition far_tower_stage : stage :=
  {| prims :=
       [ {| GetName := "Tower_far";
            IsA_Xformable := true;
            GetVisibility := inherited;
            ExtractTranslation := GfVec3f (16777215 # 2) 0 0 |} ];
     visualizer := None |}.

(** * Properties *)

(** ** Single precision storage, on known values *)

(** 0.1 is stored as 13421773 / 2^27, the binary32 value nearest to
    it. *)
Example f32Q_tenth : f32Q (1 # 10) = 13421773 # 134217728.
Proof. reflexivity. Qed.

(** From 2^24 on, odd integers are not binary32 values; a tie goes to
    the even neighbour. *)
Example f32Q_odd_integer :
  f32Q 16777217 = 16777216 /\ f32Q 16777219 = 16777220.
Proof. split; reflexivity. Qed.

(** Between 2^23 and 2^24 the grid step is 1, below 2^23 it is 1/2. *)
Example f32Q_half_integers :
  f32Q (16777215 # 2) = 16777215 # 2 /\
  f32Q (16777225 # 2) = 8388612 /\
  f32Q (16777227 # 2) = 8388614.
Proof. repeat split; reflexivity. Qed.

(** The smallest positive binary32 value is 2^-149; half of it is
    stored as 0. *)
Example f32Q_subnormal :
  f32Q (2 ^ (-149)) == 2 ^ (-149) /\ f32Q (2 ^ (-150)) == 0.
Proof. split; reflexivity. Qed.

(** ** The float primitives *)

Lemma ltb_cases (a b : Q) :
  (a < b /\ Py.ltb a b = true) \/ (b <= a /\ Py.ltb a b = false).
Proof.
  unfold Py.ltb, Qlt, Qle.
  destruct (Z.ltb_spec (Qnum a * QDen b) (Qnum b * QDen a));
    [left | right]; split; auto; lia.
Qed.

Lemma leb_cases (a b : Q) :
  (a <= b /\ Py.leb a b = true) \/ (b < a /\ Py.leb a b = false).
Proof.
  unfold Py.leb.
  destruct (Qle_bool a b) eqn:E.
  - left. split; auto. now apply Qle_bool_iff.
  - right. split; auto. apply Qnot_le_lt. intro H.
    apply Qle_bool_iff in H. congruence.
Qed.

Lemma eqb_cases (a b : Q) :
  (a == b /\ Py.eqb a b = true) \/ (~ a == b /\ Py.eqb a b = false).
Proof.
  unfold Py.eqb.
  destruct (Qeq_bool a b) eqn:E.
  - left. split; auto. now apply Qeq_bool_iff.
  - right. split; auto. intro H. apply Qeq_bool_iff in H. congruence.
Qed.

(** Case split on every comparison of the goal. *)
Ltac py_split :=
  repeat match goal with
         | |- context [Py.ltb ?a ?b] =>
             let E := fresh "E" in
             destruct (ltb_cases a b) as [[? E] | [? E]];
             rewrite E in *; cbv iota in *; clear E
         | _ : context [Py.ltb ?a ?b] |- _ =>
             let E := fresh "E" in
             destruct (ltb_cases a b) as [[? E] | [? E]];
             rewrite E in *; cbv iota in *; clear E
         | |- context [Py.leb ?a ?b] =>
             let E := fresh "E" in
             destruct (leb_cases a b) as [[? E] | [? E]];
             rewrite E in *; cbv iota in *; clear E
         | |- context [Py.eqb ?a ?b] =>
             let E := fresh "E" in
             destruct (eqb_cases a b) as [[? E] | [? E]];
             rewrite E in *; cbv iota in *; clear E
         end.

(** Linear arithmetic over the rationals, with the division by the
    constant 50 of the gradient written as a product. *)
Ltac qlra :=
  unfold Qdiv in *; change (/ 50) with (1 # 50) in *; Lqa.lra.

Lemma div_ok (a b : Q) : ~ b == 0 -> Py.div a b = Ok (a / b).
Proof.
  intro H. unfold Py.div.
  destruct (eqb_cases b 0) as [[E _] | [_ ->]]; [contradiction | reflexivity].
Qed.

Lemma div_zero (a b : Q) : b == 0 -> Py.div a b = Raise ZeroDivisionError.
Proof.
  intro H. unfold Py.div.
  destruct (eqb_cases b 0) as [[_ ->] | [E _]]; [reflexivity | contradiction].
Qed.

Lemma clamp_bounds (lo hi x : Q) :
  lo <= hi -> lo <= Py.max lo (Py.min hi x) <= hi.
Proof. intro H. unfold Py.max, Py.min. py_split; Lqa.lra. Qed.

Lemma clamp_monotone (lo hi x y : Q) :
  x <= y -> Py.max lo (Py.min hi x) <= Py.max lo (Py.min hi y).
Proof. intro H. unfold Py.max, Py.min. py_split; Lqa.lra. Qed.

Lemma clamp_inside (lo hi x : Q) :
  lo <= x <= hi -> Py.max lo (Py.min hi x) == x.
Proof. intro H. unfold Py.max, Py.min. py_split; Lqa.lra. Qed.

Lemma Qdiv_le_compat (a b c : Q) : 0 < c -> a <= b -> a / c <= b / c.
Proof.
  intros Hc Hab. apply Qle_shift_div_l; auto.
  unfold Qdiv. rewrite <- Qmult_assoc, (Qmult_comm (/ c)).
  rewrite Qmult_inv_r; Lqa.lra.
Qed.

(** ** Signal strength *)

(** With distinct ranges the function returns the clamped linear
    interpolation. *)
Lemma calculate_signal_strength_ok (d mx mn : Q) :
  ~ mx == mn ->
  calculate_signal_strength d mx mn =
    Ok (Py.max 0 (Py.min 100
          (100 * (mx - Py.max mn (Py.min mx d)) / (mx - mn)))).
Proof.
  intro H. unfold calculate_signal_strength.
  rewrite div_ok; [reflexivity | Lqa.lra].
Qed.

Lemma calculate_signal_strength_raises (d mx mn : Q) :
  mx == mn ->
  calculate_signal_strength d mx mn = Raise ZeroDivisionError.
Proof.
  intro H. unfold calculate_signal_strength.
  rewrite div_zero; [reflexivity | Lqa.lra].
Qed.

(** C1.  With [max_distance == min_distance] the call does not return
    a value for any distance: the interpolation divides by zero and
    the call ends in [ZeroDivisionError]. *)
Theorem degenerate_range_raises (distance max_distance min_distance : Q) :
  max_distance == min_distance ->
  calculate_signal_strength distance max_distance min_distance
  = Raise ZeroDivisionError.
Proof. apply calculate_signal_strength_raises. Qed.

Lemma degenerate_range_raises_witness :
  50 == 50 /\ calculate_signal_strength 50 50 50 = Raise ZeroDivisionError.
Proof.
  split; [reflexivity | apply (degenerate_range_raises 50 50 50); reflexivity].
Defined.

(** C4.  For [min_distance < max_distance] the strength is 100 at
    [min_distance], 0 at [max_distance], and for every distance the
    call returns a value between 0 and 100. *)
Theorem signal_strength_endpoints_and_range (max_distance min_distance : Q) :
  min_distance < max_distance ->
  (exists v, calculate_signal_strength min_distance max_distance min_distance
             = Ok v /\ v == 100) /\
  (exists v, calculate_signal_strength max_distance max_distance min_distance
             = Ok v /\ v == 0) /\
  (forall distance,
     exists v, calculate_signal_strength distance max_distance min_distance
               = Ok v /\ 0 <= v <= 100).
Proof.
  intro H.
  assert (Hne : ~ max_distance == min_distance) by Lqa.lra.
  assert (Hd : ~ max_distance - min_distance == 0) by Lqa.lra.
  repeat split.
  - eexists. split; [apply calculate_signal_strength_ok; assumption |].
    assert (Hc : Py.max min_distance (Py.min max_distance min_distance)
                 == min_distance) by (apply clamp_inside; Lqa.lra).
    assert (Hq : 100 * (max_distance
                        - Py.max min_distance
                            (Py.min max_distance min_distance))
                 / (max_distance - min_distance) == 100).
    { rewrite Hc. field. assumption. }
    revert Hq. generalize (100 * (max_distance
                        - Py.max min_distance
                            (Py.min max_distance min_distance))
                 / (max_distance - min_distance)).
    intros q Hq. unfold Py.max, Py.min. py_split; Lqa.lra.
  - eexists. split; [apply calculate_signal_strength_ok; assumption |].
    assert (Hc : Py.max min_distance (Py.min max_distance max_distance)
                 == max_distance) by (apply clamp_inside; Lqa.lra).
    assert (Hq : 100 * (max_distance
                        - Py.max min_distance
                            (Py.min max_distance max_distance))
                 / (max_distance - min_distance) == 0).
    { rewrite Hc. field. assumption. }
    revert Hq. generalize (100 * (max_distance
                        - Py.max min_distance
                            (Py.min max_distance max_distance))
                 / (max_distance - min_distance)).
    intros q Hq. unfold Py.max, Py.min. py_split; Lqa.lra.
  - intro distance.
    eexists. split; [apply calculate_signal_strength_ok; assumption |].
    apply clamp_bounds. Lqa.lra.
Qed.

Lemma signal_strength_endpoints_and_range_witness :
  5 < 150 /\
  (exists v, calculate_signal_strength 5 150 5 = Ok v /\ v == 100) /\
  (exists v, calculate_signal_strength 150 150 5 = Ok v /\ v == 0) /\
  (forall distance,
     exists v, calculate_signal_strength distance 150 5 = Ok v /\
               0 <= v <= 100).
Proof.
  split; [reflexivity |].
  apply (signal_strength_endpoints_and_range 150 5). reflexivity.
Defined.

(** C5.  For [min_distance < max_distance] the strength does not
    increase with the distance, over all rationals. *)
Theorem signal_strength_monotone (max_distance min_distance d1 d2 : Q) :
  min_distance < max_distance ->
  d1 <= d2 ->
  exists v1 v2,
    calculate_signal_strength d1 max_distance min_distance = Ok v1 /\
    calculate_signal_strength d2 max_distance min_distance = Ok v2 /\
    v2 <= v1.
Proof.
  intros H Hd.
  assert (Hne : ~ max_distance == min_distance) by Lqa.lra.
  do 2 eexists.
  split; [apply calculate_signal_strength_ok; assumption |].
  split; [apply calculate_signal_strength_ok; assumption |].
  apply clamp_monotone.
  apply Qdiv_le_compat; [Lqa.lra |].
  pose proof (clamp_monotone min_distance max_distance d1 d2 Hd).
  Lqa.lra.
Qed.

Lemma signal_strength_monotone_witness :
  5 < 150 /\ 20 <= 90 /\
  exists v1 v2,
    calculate_signal_strength 20 150 5 = Ok v1 /\
    calculate_signal_strength 90 150 5 = Ok v2 /\
    v2 <= v1.
Proof.
  split; [reflexivity |].
  split; [discriminate |].
  apply (signal_strength_monotone 150 5 20 90); [reflexivity | discriminate].
Defined.

(** ** Gradient colour *)

Lemma gradient_color_strong (s : Q) :
  50 < s -> s <= 100 -> calculate_gradient_color s =c= strong_branch s.
Proof.
  intros H1 H2.
  unfold calculate_gradient_color, color_eq, strong_branch, weak_branch,
    Py.max, Py.min.
  py_split; cbn [red green blue]; repeat split; qlra.
Qed.

Lemma gradient_color_weak (s : Q) :
  0 <= s -> s <= 50 -> calculate_gradient_color s =c= weak_branch s.
Proof.
  intros H1 H2.
  unfold calculate_gradient_color, color_eq, strong_branch, weak_branch,
    Py.max, Py.min.
  py_split; cbn [red green blue]; repeat split; qlra.
Qed.

(** C2.  Over exact arithmetic, the strength the statistics stage
    recovers from the colour of [s] is [s], for every [s] between 0
    and 100. *)
Theorem gradient_round_trip (s : Q) :
  0 <= s -> s <= 100 ->
  reverse_signal (calculate_gradient_color s) == s.
Proof.
  intros H1 H2.
  unfold reverse_signal, calculate_gradient_color, strong_branch,
    weak_branch, Py.max, Py.min.
  py_split; cbn [red green blue andb] in *; py_split;
    cbn [andb] in *; try qlra.
Qed.

Lemma gradient_round_trip_witness :
  0 <= 73 /\ 73 <= 100 /\
  reverse_signal (calculate_gradient_color 73) == 73.
Proof.
  split; [discriminate |].
  split; [discriminate |].
  apply (gradient_round_trip 73); discriminate.
Defined.

(** C3.  The anchors 0, 50 and 100 map to red, yellow and green; at
    50 the formulas of both branches give yellow; and the colour is
    continuous at 50: strengths close enough to 50, on either side,
    get a colour as close to yellow as wanted. *)
Theorem gradient_anchors_and_continuity :
  calculate_gradient_color 0 =c= Vec3f 1 0 0 /\
  calculate_gradient_color 50 =c= Vec3f 1 1 0 /\
  calculate_gradient_color 100 =c= Vec3f 0 1 0 /\
  strong_branch 50 =c= Vec3f 1 1 0 /\
  weak_branch 50 =c= Vec3f 1 1 0 /\
  (forall eps, 0 < eps ->
     exists delta, 0 < delta /\
       forall s, Qabs (s - 50) < delta ->
         color_close eps (calculate_gradient_color s) (Vec3f 1 1 0) /\
         (50 < s -> s <= 100 ->
          color_close eps (strong_branch s) (weak_branch 50))).
Proof.
  repeat split; try reflexivity.
  intros eps Heps. exists (eps * 50). split; [Lqa.lra |].
  intros s Hs. apply Qabs_Qlt_condition in Hs.
  split.
  - unfold color_close, calculate_gradient_color, strong_branch,
      weak_branch, Py.max, Py.min.
    py_split; cbn [red green blue]; repeat split;
      apply Qabs_Qlt_condition; qlra.
  - intros H1 H2.
    unfold color_close, strong_branch, weak_branch.
    cbn [red green blue]; repeat split;
      apply Qabs_Qlt_condition; qlra.
Qed.

Lemma gradient_anchors_and_continuity_witness :
  exists delta, 0 < delta /\
    forall s, Qabs (s - 50) < delta ->
      color_close (1 # 10) (calculate_gradient_color s) (Vec3f 1 1 0) /\
      (50 < s -> s <= 100 ->
       color_close (1 # 10) (strong_branch s) (weak_branch 50)).
Proof.
  apply (proj2 (proj2 (proj2 (proj2 (proj2
           gradient_anchors_and_continuity)))) (1 # 10)).
  reflexivity.
Defined.

(** ** The generation loops *)

Lemma grows_refl (P : point -> Prop) (st : gen_state) : grows 0 P st st.
Proof.
  exists [], []. rewrite !app_nil_r. repeat split; constructor.
Qed.

Lemma grows_trans (k1 k2 : nat) (P : point -> Prop)
    (st1 st2 st3 : gen_state) :
  grows k1 P st1 st2 -> grows k2 P st2 st3 -> grows (k1 + k2) P st1 st3.
Proof.
  intros (p1 & c1 & Hp1 & Hc1 & Lp1 & Lc1 & F1)
         (p2 & c2 & Hp2 & Hc2 & Lp2 & Lc2 & F2).
  exists (p1 ++ p2), (c1 ++ c2).
  rewrite Hp2, Hp1, Hc2, Hc1, <- !app_assoc, !length_app.
  repeat split; try congruence.
  apply Forall_app; split; assumption.
Qed.

(** A loop whose body appends [k] samples appends [k] per element. *)
Lemma for_each_grows {A : Type} (l : list A) (body : A -> M unit)
    (k : nat) (P : point -> Prop) :
  (forall x st u st', body x st = Ok (u, st') -> grows k P st st') ->
  forall st u st',
    for_each l body st = Ok (u, st') ->
    grows (List.length l * k) P st st'.
Proof.
  intro Hbody. induction l as [| x rest IH]; intros st u st' H.
  - cbn in H. unfold ret in H. injection H as _ <-. apply grows_refl.
  - cbn [for_each] in H. unfold bind in H.
    destruct (body x st) as [[u1 st1] |] eqn:E; [| discriminate].
    cbn [List.length Nat.mul].
    eapply grows_trans; [eapply Hbody; eassumption |].
    eapply IH; eassumption.
Qed.

(** A loop whose body always returns always returns. *)
Lemma for_each_total {A : Type} (l : list A) (body : A -> M unit) :
  (forall x st, exists st', body x st = Ok (tt, st')) ->
  forall st, exists st', for_each l body st = Ok (tt, st').
Proof.
  intro Hbody. induction l as [| x rest IH]; intro st.
  - exists st. reflexivity.
  - destruct (Hbody x st) as [st1 E1].
    destruct (IH st1) as [st2 E2].
    exists st2. cbn [for_each]. unfold bind. rewrite E1. exact E2.
Qed.

(** The tower loop splits its output into one chunk per tower. *)
Lemma for_each_chunks {A : Type} (l : list A) (body : A -> M unit)
    (k : nat) (P : A -> point -> Prop) :
  (forall x st u st', body x st = Ok (u, st') -> grows k (P x) st st') ->
  forall st u st',
    for_each l body st = Ok (u, st') ->
    exists chunks,
      final_points st' = final_points st ++ List.concat chunks /\
      Forall2 (fun x ch => List.length ch = k /\ Forall (P x) ch) l chunks /\
      List.length (final_colors st')
      = (List.length (final_colors st) + List.length l * k)%nat.
Proof.
  intro Hbody. induction l as [| x rest IH]; intros st u st' H.
  - cbn in H. unfold ret in H. injection H as _ <-.
    exists []. cbn. rewrite app_nil_r. repeat split; [constructor | lia].
  - cbn [for_each] in H. unfold bind in H.
    destruct (body x st) as [[u1 st1] |] eqn:E; [| discriminate].
    apply Hbody in E. destruct E as (pts & cs & Hp & Hc & Lp & Lc & F).
    destruct (IH _ _ _ H) as (chunks & Hp' & F2 & Lc').
    exists (pts :: chunks). cbn [List.concat List.length].
    rewrite Hp', Hp, <- app_assoc. split; [reflexivity |].
    split; [constructor; auto |].
    rewrite Lc', Hc, length_app. lia.
Qed.

Lemma concat_chunks_length {A B : Type} (k : nat)
    (P : A -> list B -> Prop) (l : list A) (chunks : list (list B)) :
  Forall2 (fun x ch => List.length ch = k /\ P x ch) l chunks ->
  List.length (List.concat chunks) = (List.length l * k)%nat.
Proof.
  induction 1 as [| x ch l chunks [Hk _] _ IH]; [reflexivity |].
  cbn [List.concat List.length]. rewrite length_app, IH, Hk. lia.
Qed.

Section OneTower.

Variables (origin : vec3) (max_range min_range : Q).

(** One sample, when it returns, appends one point and one colour. *)
Lemma sample_body_grows (base_height dist : Q) (st : gen_state)
    (u : unit) (st' : gen_state) :
  sample_body origin base_height dist max_range min_range st = Ok (u, st') ->
  grows 1 (sampled max_range min_range origin) st st'.
Proof.
  unfold sample_body, bind, random_uniform, uniform, random, try_,
    append_point, append_color, ret.
  cbn [rand final_points final_colors draws cursor].
  destruct (calculate_signal_strength _ max_range min_range) as [v |];
    [| discriminate].
  destruct (Py.ltb 50 v); cbn [rand final_points final_colors draws cursor];
    intro H; injection H as _ <-; cbn [final_points final_colors];
    (eexists [_], [_]; repeat split;
     constructor; [| constructor];
     eexists (Point _ _ _), _, _; cbn [px py];
     split; [reflexivity | split; reflexivity]).
Qed.

(** With distinct ranges a sample always returns. *)
Lemma sample_body_total (base_height dist : Q) (st : gen_state) :
  ~ max_range == min_range ->
  exists st',
    sample_body origin base_height dist max_range min_range st = Ok (tt, st').
Proof.
  intro Hne.
  unfold sample_body, bind, random_uniform, uniform, random, try_,
    append_point, append_color, ret.
  cbn [rand final_points final_colors draws cursor].
  rewrite calculate_signal_strength_ok by assumption.
  match goal with |- context [Py.ltb ?a ?b] => destruct (Py.ltb a b) end;
    eexists; reflexivity.
Qed.

(** With equal ranges a sample raises. *)
Lemma sample_body_raises (base_height dist : Q) (st : gen_state) :
  max_range == min_range ->
  sample_body origin base_height dist max_range min_range st
  = Raise ZeroDivisionError.
Proof.
  intro He.
  unfold sample_body, bind, random_uniform, uniform, random, try_.
  cbn [rand final_points final_colors draws cursor].
  rewrite calculate_signal_strength_raises by assumption.
  reflexivity.
Qed.

Lemma ring_divisor_nonzero : ~ inject_Z (num_rings - 1) == 0.
Proof. intro H. discriminate H. Qed.

Lemma range_length (n : Z) : List.length (range n) = Z.to_nat n.
Proof. unfold range. apply length_seq. Qed.

(** One ring, when it returns, appends [points_per_ring] samples. *)
Lemma ring_body_grows (base_height : Q) (points_per_ring : Z)
    (ring_idx : nat) (st : gen_state) (u : unit) (st' : gen_state) :
  ring_body origin base_height points_per_ring max_range min_range
    ring_idx st = Ok (u, st') ->
  grows (Z.to_nat points_per_ring) (sampled max_range min_range origin)
    st st'.
Proof.
  unfold ring_body, bind, try_.
  change (1 <? num_rings)%Z with true. cbv iota.
  rewrite div_ok by apply ring_divisor_nonzero.
  intro H. apply for_each_grows with (k := 1%nat)
                                     (P := sampled max_range min_range origin)
    in H.
  - rewrite range_length, Nat.mul_1_r in H. exact H.
  - intros x s0 u0 s1. apply sample_body_grows.
Qed.

Lemma ring_body_total (base_height : Q) (points_per_ring : Z)
    (ring_idx : nat) (st : gen_state) :
  (points_per_ring <= 0)%Z \/ ~ max_range == min_range ->
  exists st',
    ring_body origin base_height points_per_ring max_range min_range
      ring_idx st = Ok (tt, st').
Proof.
  intro H. unfold ring_body, bind, try_.
  change (1 <? num_rings)%Z with true. cbv iota.
  rewrite div_ok by apply ring_divisor_nonzero.
  destruct H as [H | H].
  - unfold range. replace (Z.to_nat points_per_ring) with 0%nat by lia.
    exists st. reflexivity.
  - apply for_each_total. intros x s0. apply sample_body_total. exact H.
Qed.

Lemma ring_body_raises (base_height : Q) (points_per_ring : Z)
    (ring_idx : nat) (st : gen_state) :
  (0 < points_per_ring)%Z -> max_range == min_range ->
  ring_body origin base_height points_per_ring max_range min_range
    ring_idx st = Raise ZeroDivisionError.
Proof.
  intros Hp He. unfold ring_body, bind, try_.
  change (1 <? num_rings)%Z with true. cbv iota.
  rewrite div_ok by apply ring_divisor_nonzero.
  unfold range.
  destruct (Z.to_nat points_per_ring) as [| n] eqn:E; [lia |].
  cbn [seq for_each]. unfold bind.
  rewrite sample_body_raises by assumption. reflexivity.
Qed.

(** One tower, when its loop returns, appends [points_of_tower]
    samples, all of them placed around that tower. *)
Lemma tower_body_grows (points_per_tower : Z) (st : gen_state) (u : unit)
    (st' : gen_state) :
  tower_body points_per_tower max_range min_range origin st = Ok (u, st') ->
  grows (points_of_tower points_per_tower)
    (sampled max_range min_range origin) st st'.
Proof.
  unfold tower_body. intro H.
  apply for_each_grows
    with (k := Z.to_nat (points_per_tower / num_rings))
         (P := sampled max_range min_range origin) in H.
  - rewrite range_length in H. exact H.
  - intros x s0 u0 s1. apply ring_body_grows.
Qed.

Lemma tower_body_total (points_per_tower : Z) (st : gen_state) :
  (points_per_tower < 20)%Z \/ ~ max_range == min_range ->
  exists st',
    tower_body points_per_tower max_range min_range origin st = Ok (tt, st').
Proof.
  intro H. unfold tower_body.
  apply for_each_total. intros x s0. apply ring_body_total.
  destruct H as [H | H]; [left | right; exact H].
  unfold num_rings.
  pose proof (Z.div_lt_upper_bound points_per_tower 20 1). lia.
Qed.

Lemma tower_body_raises (points_per_tower : Z) (st : gen_state) :
  (20 <= points_per_tower)%Z -> max_range == min_range ->
  tower_body points_per_tower max_range min_range origin st
  = Raise ZeroDivisionError.
Proof.
  intros Hp He. unfold tower_body.
  change (range num_rings) with (0%nat :: seq 1 19).
  cbn [for_each]. unfold bind.
  rewrite ring_body_raises; [reflexivity | | assumption].
  unfold num_rings.
  pose proof (Z.div_le_lower_bound points_per_tower 20 1). lia.
Qed.

End OneTower.

(** The whole generation, when it returns, leaves one chunk of
    [points_of_tower] samples per tower and as many colours as
    points. *)
Lemma generate_points_chunks (cfg : config) (towers : list vec3)
    (st : gen_state) (u : unit) (st' : gen_state) :
  generate_points cfg towers st = Ok (u, st') ->
  exists chunks,
    final_points st' = final_points st ++ List.concat chunks /\
    Forall2
      (fun origin ch =>
         List.length ch = points_of_tower (POINTS_PER_TOWER cfg) /\
         Forall (sampled (MAX_SIGNAL_RANGE cfg) (MIN_SIGNAL_RANGE cfg) origin)
           ch)
      towers chunks /\
    List.length (final_colors st')
    = (List.length (final_colors st)
       + List.length towers * points_of_tower (POINTS_PER_TOWER cfg))%nat.
Proof.
  unfold generate_points. intro H.
  eapply for_each_chunks in H; [exact H |].
  intros origin s0 u0 s1. apply tower_body_grows.
Qed.

Lemma generate_points_total (cfg : config) (towers : list vec3)
    (st : gen_state) :
  (POINTS_PER_TOWER cfg < 20)%Z \/
  ~ MAX_SIGNAL_RANGE cfg == MIN_SIGNAL_RANGE cfg ->
  exists st', generate_points cfg towers st = Ok (tt, st').
Proof.
  intro H. unfold generate_points.
  apply for_each_total. intros origin s0. apply tower_body_total. exact H.
Qed.

Lemma generate_points_raises (cfg : config) (origin : vec3)
    (towers : list vec3) (st : gen_state) :
  (20 <= POINTS_PER_TOWER cfg)%Z ->
  MAX_SIGNAL_RANGE cfg == MIN_SIGNAL_RANGE cfg ->
  generate_points cfg (origin :: towers) st = Raise ZeroDivisionError.
Proof.
  intros Hp He. unfold generate_points. cbn [for_each]. unfold bind.
  rewrite tower_body_raises by assumption. reflexivity.
Qed.

(** ** Statistics *)

(** Every strength falls in exactly one of the three bands. *)
Lemma band_partition (s : Q) :
  ((if is_red s then 1 else 0) + (if is_yellow s then 1 else 0)
   + (if is_green s then 1 else 0) = 1)%nat.
Proof.
  unfold is_red, is_yellow, is_green.
  py_split; cbn [andb]; py_split; try reflexivity; exfalso; Lqa.lra.
Qed.

Lemma count_if_cons (test : Q -> bool) (s : Q) (l : list Q) :
  count_if test (s :: l)
  = ((if test s then 1 else 0) + count_if test l)%nat.
Proof. unfold count_if. cbn [filter]. destruct (test s); reflexivity. Qed.

Lemma bucket_counts_partition (l : list Q) :
  (count_if is_red l + count_if is_yellow l + count_if is_green l)%nat
  = List.length l.
Proof.
  induction l as [| s l IH]; [reflexivity |].
  rewrite !count_if_cons. cbn [List.length].
  pose proof (band_partition s). lia.
Qed.

Lemma nat_Q_nonzero (n : nat) : n <> 0%nat -> ~ nat_Q n == 0.
Proof.
  intros Hn H. unfold nat_Q, Qeq in H. cbn in H. lia.
Qed.

Lemma statistics_empty (points : list point) :
  statistics points [] = Raise ValueError.
Proof. reflexivity. Qed.

(** On a non-empty colour list with as many points the statistics
    block returns, and its counts are those of the three bands. *)
Lemma statistics_ok (points : list point) (colors : list color) :
  colors <> [] ->
  List.length points = List.length colors ->
  exists r,
    statistics points colors = Ok r /\
    red_count r = count_if is_red (map reverse_signal colors) /\
    yellow_count r = count_if is_yellow (map reverse_signal colors) /\
    green_count r = count_if is_green (map reverse_signal colors) /\
    total_points r = List.length points.
Proof.
  intros Hne Hlen. unfold statistics.
  destruct colors as [| c colors]; [contradiction |].
  cbn [map min_list max_list and_then].
  assert (Hn : List.length points <> 0%nat) by (rewrite Hlen; discriminate).
  rewrite (div_ok _ (len _)).
  2:{ unfold len. apply nat_Q_nonzero. discriminate. }
  cbn [and_then].
  rewrite !(div_ok _ (nat_Q (List.length points)))
    by (apply nat_Q_nonzero; exact Hn).
  cbn [and_then]. eexists. split; [reflexivity |].
  cbn [red_count yellow_count green_count total_points].
  repeat split.
Qed.

Lemma statistics_counts (points : list point) (colors : list color)
    (r : report) :
  statistics points colors = Ok r ->
  (red_count r + yellow_count r + green_count r)%nat = List.length colors /\
  total_points r = List.length points.
Proof.
  unfold statistics, and_then. intro H.
  destruct (min_list _); [| discriminate].
  destruct (max_list _); [| discriminate].
  destruct (Py.div _ _); [| discriminate].
  destruct (Py.div _ _); [| discriminate].
  destruct (Py.div _ _); [| discriminate].
  destruct (Py.div _ _); [| discriminate].
  injection H as <-. cbn [red_count yellow_count green_count total_points].
  rewrite bucket_counts_partition, length_map. split; reflexivity.
Qed.

(** ** The pass *)

Lemma generate_heatmap_no_towers (cfg : config) (g : rng) (s : stage) :
  scan_towers (prims s) = [] ->
  generate_heatmap cfg g s
  = (set_visualizer s
       {| visibility_attr := invisible;
          points_attr := Some [];
          display_color_attr := Some [];
          widths_attr := None |},
     Ok None).
Proof. intro H. unfold generate_heatmap. rewrite H. reflexivity. Qed.

(** A pass whose generation raises leaves the arrays unwritten. *)
Lemma generate_heatmap_raised (cfg : config) (g : rng) (s : stage)
    (e : exn) :
  scan_towers (prims s) <> [] ->
  generate_points cfg (scan_towers (prims s)) (initial_gen_state g)
  = Raise e ->
  generate_heatmap cfg g s
  = (set_visualizer s fresh_points_prim, Raise e).
Proof.
  intros Hne H. unfold generate_heatmap.
  destruct (scan_towers (prims s)) as [| t ts]; [contradiction |].
  rewrite H. reflexivity.
Qed.

(** A pass whose generation returns writes the three arrays and then
    ends the way the statistics block ends. *)
Lemma generate_heatmap_generated (cfg : config) (g : rng) (s : stage)
    (u : unit) (st : gen_state) :
  scan_towers (prims s) <> [] ->
  generate_points cfg (scan_towers (prims s)) (initial_gen_state g)
  = Ok (u, st) ->
  generate_heatmap cfg g s
  = (set_visualizer s
       {| visibility_attr := inherited;
          points_attr := Some (final_points st);
          display_color_attr := Some (final_colors st);
          widths_attr :=
            Some (repeat (POINT_SIZE cfg) (List.length (final_points st))) |},
     match statistics (final_points st) (final_colors st) with
     | Raise e => Raise e
     | Ok r => Ok (Some r)
     end).
Proof.
  intros Hne H. unfold generate_heatmap.
  destruct (scan_towers (prims s)) as [| t ts]; [contradiction |].
  rewrite H. destruct (statistics _ _); reflexivity.
Qed.

(** What a returned generation leaves in the two lists. *)
Lemma generated_lengths (cfg : config) (g : rng) (towers : list vec3)
    (u : unit) (st : gen_state) :
  generate_points cfg towers (initial_gen_state g) = Ok (u, st) ->
  List.length (final_points st)
  = (List.length towers * points_of_tower (POINTS_PER_TOWER cfg))%nat /\
  List.length (final_colors st) = List.length (final_points st).
Proof.
  intro H. apply generate_points_chunks in H.
  destruct H as (chunks & Hp & F & Lc).
  cbn [initial_gen_state final_points final_colors app List.length] in *.
  rewrite Hp, Lc.
  rewrite (concat_chunks_length _ _ _ _ F). split; reflexivity.
Qed.

Lemma points_of_tower_Z (points_per_tower : Z) :
  (0 <= points_per_tower)%Z ->
  Z.of_nat (points_of_tower points_per_tower)
  = (points_per_tower - points_per_tower mod 20)%Z.
Proof.
  intro H. unfold points_of_tower, num_rings.
  pose proof (Z.div_mod points_per_tower 20).
  pose proof (Z.div_pos points_per_tower 20).
  lia.
Qed.

Lemma points_of_tower_positive (points_per_tower : Z) :
  (20 <= points_per_tower)%Z <->
  points_of_tower points_per_tower <> 0%nat.
Proof.
  unfold points_of_tower, num_rings.
  pose proof (Z.div_le_lower_bound points_per_tower 20 1).
  pose proof (Z.div_lt_upper_bound points_per_tower 20 1).
  split; intro H1; lia.
Qed.

(** The nearest integer is at most one half away. *)
Lemma Rround_half_even_error (t : R) :
  (Rabs (IZR (Rround_half_even t) - t) <= 1 / 2)%R.
Proof.
  unfold Rround_half_even.
  destruct (base_Int_part t) as [H1 H2].
  set (n := Int_part t) in *.
  destruct (Rlt_dec (t - IZR n) (1 / 2)) as [Hlt | Hge].
  - apply Rabs_le. split; Lra.lra.
  - destruct (Rlt_dec (1 / 2) (t - IZR n)) as [Hgt | Hle].
    + rewrite plus_IZR. apply Rabs_le. split; Lra.lra.
    + destruct (Z.even n); [| rewrite plus_IZR]; apply Rabs_le;
        split; Lra.lra.
Qed.

(** Storing a coordinate moves it by at most half a step of the
    binary32 grid at its magnitude. *)
Lemma f32_error (x : R) :
  (Rabs (f32 x - x) <= powerRZ 2 (ulp_exponent32 (Rmag x)) / 2)%R.
Proof.
  unfold f32.
  set (k := ulp_exponent32 (Rmag x)).
  assert (Hk : (0 < powerRZ 2 k)%R) by (apply powerRZ_lt; Lra.lra).
  pose proof (Rround_half_even_error (x / powerRZ 2 k)) as He.
  set (r := IZR (Rround_half_even (x / powerRZ 2 k))) in *.
  replace (r * powerRZ 2 k - x)%R
    with ((r - x / powerRZ 2 k) * powerRZ 2 k)%R by (field; Lra.lra).
  rewrite Rabs_mult, (Rabs_pos_eq (powerRZ 2 k)) by Lra.lra.
  assert (H0 : (0 <= Rabs (r - x / powerRZ 2 k))%R) by apply Rabs_pos.
  Lra.nra.
Qed.

(** A position placed at the signed distance [d] from a tower lies at
    planar distance [|d|] from it. *)
Lemma planar_distance_signed (origin : vec3) (q : point) (d : Q) (a : R) :
  px q = (Q2R (at0 origin) + Q2R d * cos a)%R ->
  py q = (Q2R (at1 origin) + Q2R d * sin a)%R ->
  planar_distance origin q = Rabs (Q2R d).
Proof.
  intros Hx Hy. unfold planar_distance. rewrite Hx, Hy.
  pose proof (sin2_cos2 a) as Hsc. unfold Rsqr in Hsc.
  match goal with
  | |- sqrt ?e = _ =>
      replace e
        with (Q2R d * Q2R d * (sin a * sin a + cos a * cos a))%R by ring
  end.
  rewrite Hsc, Rmult_1_r. apply sqrt_Rsqr_abs.
Qed.

(** An emitted point is the storage of a position placed at a clamped
    distance from its tower. *)
Lemma sampled_position (max_range min_range : Q) (origin : vec3)
    (p : point) :
  min_range <= max_range ->
  sampled max_range min_range origin p ->
  exists q d,
    p = Vec3f_of q /\
    min_range <= d <= max_range /\
    planar_distance origin q = Rabs (Q2R d) /\
    (0 <= min_range -> within_range min_range max_range origin q) /\
    (Rabs (px p - px q)
     <= powerRZ 2 (ulp_exponent32 (Rmag (px q))) / 2)%R /\
    (Rabs (py p - py q)
     <= powerRZ 2 (ulp_exponent32 (Rmag (py q))) / 2)%R.
Proof.
  intros Hle (q & d & angle & Hp & Hx & Hy).
  pose proof (clamp_bounds min_range max_range d Hle) as Hc.
  set (c := Py.max min_range (Py.min max_range d)) in *.
  pose proof (planar_distance_signed origin q c _ Hx Hy) as Hd.
  exists q, c. split; [exact Hp |]. split; [exact Hc |].
  split; [exact Hd |].
  split.
  - intro H0. unfold within_range. rewrite Hd.
    assert (H0c : (0 <= Q2R c)%R).
    { replace 0%R with (Q2R 0) by (unfold Q2R; cbn; Lra.lra).
      apply Qle_Rle. Lqa.lra. }
    rewrite Rabs_pos_eq by exact H0c.
    split; apply Qle_Rle; apply Hc.
  - rewrite Hp. cbn [Vec3f_of px py]. split; apply f32_error.
Qed.



(** C7.  For a positive [POINTS_PER_TOWER]: the 20 rings of
    [POINTS_PER_TOWER // 20] samples are
    [POINTS_PER_TOWER - POINTS_PER_TOWER mod 20] samples; a tower's
    loop that returns has appended exactly that many points; and with
    distinct ranges (the data model's [maxRange > minRange]; with
    equal ranges every sample raises, see C1) each tower's loop does
    return and the pass emits that many points per scanned tower. *)
Theorem ring_quantized_point_count (cfg : config) (g : rng) (s : stage) :
  (0 < POINTS_PER_TOWER cfg)%Z ->
  (num_rings * (POINTS_PER_TOWER cfg / num_rings)
   = POINTS_PER_TOWER cfg - POINTS_PER_TOWER cfg mod 20)%Z /\
  (forall origin st u st',
     tower_body (POINTS_PER_TOWER cfg) (MAX_SIGNAL_RANGE cfg)
       (MIN_SIGNAL_RANGE cfg) origin st = Ok (u, st') ->
     Z.of_nat (List.length (final_points st'))
     = (Z.of_nat (List.length (final_points st))
        + (POINTS_PER_TOWER cfg - POINTS_PER_TOWER cfg mod 20))%Z) /\
  (~ MAX_SIGNAL_RANGE cfg == MIN_SIGNAL_RANGE cfg ->
   (forall origin st,
      exists st',
        tower_body (POINTS_PER_TOWER cfg) (MAX_SIGNAL_RANGE cfg)
          (MIN_SIGNAL_RANGE cfg) origin st = Ok (tt, st')) /\
   Z.of_nat (List.length (emitted_points (fst (generate_heatmap cfg g s))))
   = (Z.of_nat (List.length (scan_towers (prims s)))
      * (POINTS_PER_TOWER cfg - POINTS_PER_TOWER cfg mod 20))%Z).
Proof.
  intros Hpos.
  assert (Hk := points_of_tower_Z (POINTS_PER_TOWER cfg) ltac:(lia)).
  split; [| split].
  - unfold num_rings. pose proof (Z.div_mod (POINTS_PER_TOWER cfg) 20). lia.
  - intros origin st u st' E.
    apply tower_body_grows in E.
    destruct E as (pts & cs & Hp & _ & Lp & _ & _).
    rewrite Hp, length_app, Lp, Nat2Z.inj_add, Hk. reflexivity.
  - intro Hne. split.
    + intros origin st. apply tower_body_total. right. exact Hne.
    + destruct (scan_towers (prims s)) as [| t ts] eqn:Hscan.
      * rewrite generate_heatmap_no_towers by exact Hscan. reflexivity.
      * destruct (generate_points_total cfg (t :: ts) (initial_gen_state g)
                    (or_intror Hne)) as [st' E].
        rewrite <- Hscan in E.
        rewrite (generate_heatmap_generated cfg g s tt st')
          by (try exact E; rewrite Hscan; discriminate).
        cbn [fst emitted_points set_visualizer visualizer points_attr].
        apply generated_lengths in E. destruct E as [E _].
        rewrite E, Hscan, Nat2Z.inj_mul, Hk. reflexivity.
Qed.

Lemma ring_quantized_point_count_witness :
  (0 < POINTS_PER_TOWER small_config)%Z /\
  ~ MAX_SIGNAL_RANGE small_config == MIN_SIGNAL_RANGE small_config /\
  Z.of_nat
    (List.length
       (emitted_points
          (fst (generate_heatmap small_config half_rng one_tower_stage))))
  = (1 * (45 - 45 mod 20))%Z.
Proof.
  assert (Hpos : (0 < POINTS_PER_TOWER small_config)%Z) by reflexivity.
  assert (Hne : ~ MAX_SIGNAL_RANGE small_config
                  == MIN_SIGNAL_RANGE small_config) by discriminate.
  split; [exact Hpos |].
  split; [exact Hne |].
  exact (proj2 (proj2 (proj2 (ring_quantized_point_count small_config
                                half_rng one_tower_stage Hpos)) Hne)).
Defined.

(** C8.  With [MIN_SIGNAL_RANGE <= MAX_SIGNAL_RANGE], whatever the
    random draws: the emitted points split into one chunk per scanned
    tower, in order, and every point of a chunk is the single
    precision storage of a position [q] placed at a signed distance
    [d] from that tower with [MIN_SIGNAL_RANGE <= d <=
    MAX_SIGNAL_RANGE].  The position [q] lies at planar distance [|d|]
    from the tower, so between the two ranges when [MIN_SIGNAL_RANGE]
    is not negative; the stored point itself need not, each of its
    coordinates being up to half a step of the binary32 grid away
    from that of [q]. *)
Theorem emitted_points_stored_from_range (cfg : config) (g : rng)
    (s : stage) :
  MIN_SIGNAL_RANGE cfg <= MAX_SIGNAL_RANGE cfg ->
  exists chunks,
    emitted_points (fst (generate_heatmap cfg g s)) = List.concat chunks /\
    Forall2
      (fun origin chunk =>
         Forall
           (fun p =>
              exists q d,
                p = Vec3f_of q /\
                MIN_SIGNAL_RANGE cfg <= d <= MAX_SIGNAL_RANGE cfg /\
                planar_distance origin q = Rabs (Q2R d) /\
                (0 <= MIN_SIGNAL_RANGE cfg ->
                 within_range (MIN_SIGNAL_RANGE cfg) (MAX_SIGNAL_RANGE cfg)
                   origin q) /\
                (Rabs (px p - px q)
                 <= powerRZ 2 (ulp_exponent32 (Rmag (px q))) / 2)%R /\
                (Rabs (py p - py q)
                 <= powerRZ 2 (ulp_exponent32 (Rmag (py q))) / 2)%R)
           chunk)
      (scan_towers (prims s)) chunks.
Proof.
  intros Hle.
  destruct (scan_towers (prims s)) as [| t ts] eqn:Hscan.
  - exists []. rewrite generate_heatmap_no_towers by exact Hscan.
    split; [reflexivity | constructor].
  - assert (Hne : scan_towers (prims s) <> [])
      by (rewrite Hscan; discriminate).
    destruct (generate_points cfg (scan_towers (prims s))
                (initial_gen_state g)) as [[u st] | e] eqn:E.
    + rewrite (generate_heatmap_generated cfg g s u st Hne E).
      cbn [fst emitted_points set_visualizer visualizer points_attr].
      apply generate_points_chunks in E.
      destruct E as (chunks & Hp & F & _).
      exists chunks. split; [exact Hp |].
      rewrite <- Hscan.
      eapply Forall2_impl; [| exact F].
      intros origin ch [_ Hch]. cbv beta.
      eapply Forall_impl; [| exact Hch].
      intro p. apply sampled_position; assumption.
    + rewrite (generate_heatmap_raised cfg g s e Hne E).
      exists (map (fun _ => []) (t :: ts)).
      split.
      * cbn [fst emitted_points set_visualizer visualizer points_attr
               fresh_points_prim].
        generalize (t :: ts). intro l.
        induction l as [| x l IH]; [reflexivity | exact IH].
      * generalize (t :: ts). intro l.
        induction l as [| x l IH]; constructor; [constructor | exact IH].
Qed.

Lemma emitted_points_stored_from_range_witness :
  MIN_SIGNAL_RANGE small_config <= MAX_SIGNAL_RANGE small_config /\
  exists chunks,
    emitted_points (fst (generate_heatmap small_config half_rng
                           one_tower_stage))
    = List.concat chunks /\
    Forall2
      (fun origin chunk =>
         Forall
           (fun p =>
              exists q d,
                p = Vec3f_of q /\
                5 <= d <= 150 /\
                planar_distance origin q = Rabs (Q2R d) /\
                (0 <= 5 -> within_range 5 150 origin q) /\
                (Rabs (px p - px q)
                 <= powerRZ 2 (ulp_exponent32 (Rmag (px q))) / 2)%R /\
                (Rabs (py p - py q)
                 <= powerRZ 2 (ulp_exponent32 (Rmag (py q))) / 2)%R)
           chunk)
      (scan_towers (prims one_tower_stage)) chunks.
Proof.
  assert (H : MIN_SIGNAL_RANGE small_config <= MAX_SIGNAL_RANGE small_config)
    by discriminate.
  split; [exact H |].
  exact (emitted_points_stored_from_range small_config half_rng
           one_tower_stage H).
Defined.

(** C9.  Whenever a pass prints its statistics, the weak, medium and
    strong counts add up to the number of emitted points, which is
    also the printed total. *)
Theorem bucket_counts_sum_to_total (cfg : config) (g : rng) (s s' : stage)
    (r : report) :
  generate_heatmap cfg g s = (s', Ok (Some r)) ->
  (red_count r + yellow_count r + green_count r)%nat
  = List.length (emitted_points s') /\
  total_points r = List.length (emitted_points s').
Proof.
  intro H.
  destruct (scan_towers (prims s)) as [| t ts] eqn:Hscan.
  - rewrite generate_heatmap_no_towers in H by exact Hscan. discriminate H.
  - assert (Hne : scan_towers (prims s) <> [])
      by (rewrite Hscan; discriminate).
    destruct (generate_points cfg (scan_towers (prims s))
                (initial_gen_state g)) as [[u st] | e] eqn:E.
    + rewrite (generate_heatmap_generated cfg g s u st Hne E) in H.
      destruct (statistics (final_points st) (final_colors st)) as [r' | e]
        eqn:Es; [| discriminate H].
      injection H as <- <-.
      cbn [emitted_points set_visualizer visualizer points_attr].
      apply statistics_counts in Es. destruct Es as [Hsum Htot].
      apply generated_lengths in E. destruct E as [_ Hlen].
      rewrite Hsum, Htot, Hlen. split; reflexivity.
    + rewrite (generate_heatmap_raised cfg g s e Hne E) in H.
      discriminate H.
Qed.

Lemma bucket_counts_sum_to_total_witness :
  exists s' r,
    generate_heatmap small_config half_rng one_tower_stage
    = (s', Ok (Some r)) /\
    (red_count r + yellow_count r + green_count r)%nat
    = List.length (emitted_points s') /\
    total_points r = List.length (emitted_points s').
Proof.
  assert (E : exists r,
             snd (generate_heatmap small_config half_rng one_tower_stage)
             = Ok (Some r)).
  { vm_compute. eexists. reflexivity. }
  destruct E as [r E].
  exists (fst (generate_heatmap small_config half_rng one_tower_stage)), r.
  assert (H : generate_heatmap small_config half_rng one_tower_stage
              = (fst (generate_heatmap small_config half_rng one_tower_stage),
                 Ok (Some r))).
  { rewrite <- E. apply surjective_pairing. }
  split; [exact H |].
  exact (bucket_counts_sum_to_total small_config half_rng one_tower_stage
           _ r H).
Defined.

(** C10.  The statistics block has no guard for an empty list.
    - It returns exactly when the colour list is not empty (on lists
      of equal length), and raises [ValueError] on the empty one.
    - With at least one tower and distinct ranges, points are emitted
      exactly when [POINTS_PER_TOWER >= 20].
    - With at least one tower and [POINTS_PER_TOWER >= 20] (so for
      every slider value, which is at least 100), the block returns
      after every generation that returns, and the pass never ends in
      [ValueError].
    - With at least one tower and [POINTS_PER_TOWER < 20] the pass
      writes empty arrays and ends in [ValueError]. *)
Theorem statistics_defined_iff_twenty_points :
  (forall points colors,
     List.length points = List.length colors ->
     (is_ok (statistics points colors) = true <-> colors <> [])) /\
  (forall points, statistics points [] = Raise ValueError) /\
  (forall cfg g s,
     scan_towers (prims s) <> [] ->
     ~ MAX_SIGNAL_RANGE cfg == MIN_SIGNAL_RANGE cfg ->
     (emitted_points (fst (generate_heatmap cfg g s)) <> [] <->
      (20 <= POINTS_PER_TOWER cfg)%Z)) /\
  (forall cfg g s,
     scan_towers (prims s) <> [] ->
     (20 <= POINTS_PER_TOWER cfg)%Z ->
     (forall u st,
        generate_points cfg (scan_towers (prims s)) (initial_gen_state g)
        = Ok (u, st) ->
        is_ok (statistics (final_points st) (final_colors st)) = true) /\
     snd (generate_heatmap cfg g s) <> Raise ValueError) /\
  (forall cfg g s,
     scan_towers (prims s) <> [] ->
     (POINTS_PER_TOWER cfg < 20)%Z ->
     snd (generate_heatmap cfg g s) = Raise ValueError /\
     emitted_points (fst (generate_heatmap cfg g s)) = []).
Proof.
  assert (Hstat : forall points colors,
             List.length points = List.length colors ->
             (is_ok (statistics points colors) = true <-> colors <> [])).
  { intros points colors Hlen. split.
    - intros H ->. rewrite statistics_empty in H. discriminate H.
    - intro Hne. destruct (statistics_ok points colors Hne Hlen)
        as (r & -> & _). reflexivity. }
  assert (Hgen : forall cfg g s u st,
             scan_towers (prims s) <> [] ->
             generate_points cfg (scan_towers (prims s)) (initial_gen_state g)
             = Ok (u, st) ->
             (final_points st <> [] <-> (20 <= POINTS_PER_TOWER cfg)%Z) /\
             (final_colors st <> [] <-> (20 <= POINTS_PER_TOWER cfg)%Z) /\
             List.length (final_points st) = List.length (final_colors st)).
  { intros cfg g s u st Hne E.
    apply generated_lengths in E. destruct E as [Hp Hc].
    assert (Hn : List.length (scan_towers (prims s)) <> 0%nat).
    { destruct (scan_towers (prims s)); [contradiction | discriminate]. }
    pose proof (points_of_tower_positive (POINTS_PER_TOWER cfg)) as Hk.
    rewrite Hp in Hc.
    repeat split.
    - intro H. apply Hk. intro Hz. apply H.
      apply length_zero_iff_nil. rewrite Hp, Hz. lia.
    - intros H Hnil. apply Hk in H. rewrite Hnil in Hp.
      cbn [List.length] in Hp. symmetry in Hp.
      apply Nat.eq_mul_0 in Hp. destruct Hp; contradiction.
    - intro H. apply Hk. intro Hz. apply H.
      apply length_zero_iff_nil. rewrite Hc, Hz. lia.
    - intros H Hnil. apply Hk in H. rewrite Hnil in Hc.
      cbn [List.length] in Hc. symmetry in Hc.
      apply Nat.eq_mul_0 in Hc. destruct Hc; contradiction.
    - congruence. }
  split; [exact Hstat |].
  split; [exact statistics_empty |].
  split; [| split].
  - intros cfg g s Hne Hr.
    destruct (generate_points_total cfg (scan_towers (prims s))
                (initial_gen_state g) (or_intror Hr)) as [st E].
    rewrite (generate_heatmap_generated cfg g s tt st Hne E).
    cbn [fst emitted_points set_visualizer visualizer points_attr].
    apply (Hgen cfg g s tt st Hne E).
  - intros cfg g s Hne Hp.
    assert (Hok : forall u st,
               generate_points cfg (scan_towers (prims s))
                 (initial_gen_state g) = Ok (u, st) ->
               is_ok (statistics (final_points st) (final_colors st))
               = true).
    { intros u st E.
      destruct (Hgen cfg g s u st Hne E) as (_ & Hc & Hlen).
      apply Hstat; [exact Hlen | apply Hc; exact Hp]. }
    split; [exact Hok |].
    destruct (generate_points cfg (scan_towers (prims s))
                (initial_gen_state g)) as [[u st] | e] eqn:E.
    + rewrite (generate_heatmap_generated cfg g s u st Hne E).
      cbn [snd]. specialize (Hok u st eq_refl).
      destruct (statistics (final_points st) (final_colors st));
        [discriminate | discriminate Hok].
    + rewrite (generate_heatmap_raised cfg g s e Hne E). cbn [snd].
      destruct (Qeq_dec (MAX_SIGNAL_RANGE cfg) (MIN_SIGNAL_RANGE cfg))
        as [He | Hd].
      * destruct (scan_towers (prims s)) as [| t ts]; [contradiction |].
        rewrite generate_points_raises in E by assumption.
        injection E as <-. discriminate.
      * destruct (generate_points_total cfg (scan_towers (prims s))
                    (initial_gen_state g) (or_intror Hd)) as [st E'].
        rewrite E in E'. discriminate E'.
  - intros cfg g s Hne Hp.
    destruct (generate_points_total cfg (scan_towers (prims s))
                (initial_gen_state g) (or_introl Hp)) as [st E].
    rewrite (generate_heatmap_generated cfg g s tt st Hne E).
    cbn [fst snd emitted_points set_visualizer visualizer points_attr].
    destruct (Hgen cfg g s tt st Hne E) as (Hpts & Hcs & _).
    assert (Hc : final_colors st = []).
    { destruct (final_colors st) as [| c cs]; [reflexivity |].
      exfalso. assert (20 <= POINTS_PER_TOWER cfg)%Z
        by (apply Hcs; discriminate). lia. }
    assert (Hq : final_points st = []).
    { destruct (final_points st) as [| q qs]; [reflexivity |].
      exfalso. assert (20 <= POINTS_PER_TOWER cfg)%Z
        by (apply Hpts; discriminate). lia. }
    rewrite Hc, Hq. split; reflexivity.
Qed.

Lemma statistics_defined_iff_twenty_points_witness :
  snd (generate_heatmap sparse_config half_rng one_tower_stage)
  = Raise ValueError /\
  emitted_points (fst (generate_heatmap sparse_config half_rng
                         one_tower_stage)) = [].
Proof.
  apply (proj2 (proj2 (proj2 (proj2
           statistics_defined_iff_twenty_points)))
           sparse_config half_rng one_tower_stage).
  - discriminate.
  - reflexivity.
Defined.

(** ** The degenerate slider setting, end to end *)

(** With both range sliders at 50 m and one visible tower the pass
    ends in [ZeroDivisionError] and the display object is left shown
    with no arrays written. *)
Example degenerate_pass_raises :
  generate_heatmap degenerate_config half_rng one_tower_stage
  = (set_visualizer one_tower_stage fresh_points_prim,
     Raise ZeroDivisionError).
Proof.
  apply generate_heatmap_raised; [discriminate |].
  apply generate_points_raises; [discriminate | reflexivity].
Qed.

(** * Further properties *)

(** ** Gradient colour and its inverse *)

(** X1.  Whatever the strength, the colour is in the unit cube, has
    no blue, and has its red or its green channel at 1. *)
Theorem gradient_color_on_gradient (s : Q) :
  on_gradient (calculate_gradient_color s).
Proof.
  unfold on_gradient, calculate_gradient_color, strong_branch, weak_branch,
    Py.max, Py.min.
  py_split; cbn [red green blue]; repeat split; try qlra;
    (left; qlra) || (right; qlra).
Qed.

(** X2.  Strengths at or below 0 give pure red, strengths at or above
    100 give pure green. *)
Theorem gradient_color_saturates (s : Q) :
  (s <= 0 -> calculate_gradient_color s =c= Vec3f 1 0 0) /\
  (100 <= s -> calculate_gradient_color s =c= Vec3f 0 1 0).
Proof.
  split; intro H;
    unfold color_eq, calculate_gradient_color, strong_branch, weak_branch,
      Py.max, Py.min;
    py_split; cbn [red green blue]; repeat split; qlra.
Qed.

Lemma gradient_color_saturates_witness :
  calculate_gradient_color (-7) =c= Vec3f 1 0 0 /\
  calculate_gradient_color 250 =c= Vec3f 0 1 0.
Proof.
  split.
  - apply (proj1 (gradient_color_saturates (-7))). discriminate.
  - apply (proj2 (gradient_color_saturates 250)). discriminate.
Defined.

(** X3.  A larger strength never has less green nor more red. *)
Theorem gradient_color_monotone (s1 s2 : Q) :
  s1 <= s2 ->
  green (calculate_gradient_color s1) <= green (calculate_gradient_color s2) /\
  red (calculate_gradient_color s2) <= red (calculate_gradient_color s1).
Proof.
  intro H.
  unfold calculate_gradient_color, strong_branch, weak_branch,
    Py.max, Py.min.
  py_split; cbn [red green blue]; split; qlra.
Qed.

Lemma gradient_color_monotone_witness :
  30 <= 80 /\
  green (calculate_gradient_color 30) <= green (calculate_gradient_color 80) /\
  red (calculate_gradient_color 80) <= red (calculate_gradient_color 30).
Proof.
  split; [discriminate |].
  apply (gradient_color_monotone 30 80). discriminate.
Defined.

(** Equal strengths have equal colours. *)
Lemma gradient_color_compat (s1 s2 : Q) :
  s1 == s2 -> calculate_gradient_color s1 =c= calculate_gradient_color s2.
Proof.
  intro H.
  unfold color_eq, calculate_gradient_color, strong_branch, weak_branch,
    Py.max, Py.min.
  py_split; cbn [red green blue]; repeat split; qlra.
Qed.

(** X4.  For every strength, in range or not, the statistics stage
    recovers from its colour the strength clamped to [[0,100]]. *)
Theorem round_trip_clamps (s : Q) :
  reverse_signal (calculate_gradient_color s) == Py.max 0 (Py.min 100 s) /\
  0 <= reverse_signal (calculate_gradient_color s) <= 100.
Proof.
  unfold reverse_signal, calculate_gradient_color, strong_branch,
    weak_branch, Py.max, Py.min.
  py_split; cbn [red green blue andb] in *; py_split;
    cbn [andb] in *; repeat split; qlra.
Qed.

(** On any colour of the unit cube the recovered strength is between
    0 and 100. *)
Lemma reverse_signal_range (c : color) :
  0 <= red c <= 1 -> 0 <= green c <= 1 ->
  0 <= reverse_signal c <= 100.
Proof.
  intros Hr Hg. unfold reverse_signal.
  py_split; cbn [andb]; py_split; cbn [andb]; Lqa.lra.
Qed.

(** ** Signal strength *)

(** X5.  With [min_distance < max_distance] the strength is 100 up to
    [min_distance], 0 from [max_distance] on, and the linear
    interpolation in between. *)
Theorem signal_strength_piecewise (distance max_distance min_distance : Q) :
  min_distance < max_distance ->
  exists v,
    calculate_signal_strength distance max_distance min_distance = Ok v /\
    (distance <= min_distance -> v == 100) /\
    (max_distance <= distance -> v == 0) /\
    (min_distance <= distance <= max_distance ->
     v == 100 * (max_distance - distance) / (max_distance - min_distance)).
Proof.
  intro H.
  assert (Hne : ~ max_distance == min_distance) by Lqa.lra.
  assert (Hd : ~ max_distance - min_distance == 0) by Lqa.lra.
  eexists. split; [apply calculate_signal_strength_ok; exact Hne |].
  set (c := Py.max min_distance (Py.min max_distance distance)).
  assert (Hc : min_distance <= c <= max_distance)
    by (apply clamp_bounds; Lqa.lra).
  assert (Hlo : 0 <= 100 * (max_distance - c)
                     / (max_distance - min_distance)).
  { apply Qle_shift_div_l; Lqa.lra. }
  assert (Hhi : 100 * (max_distance - c) / (max_distance - min_distance)
                <= 100).
  { apply Qle_shift_div_r; Lqa.lra. }
  assert (Hv : Py.max 0 (Py.min 100
                 (100 * (max_distance - c) / (max_distance - min_distance)))
               == 100 * (max_distance - c) / (max_distance - min_distance))
    by (apply clamp_inside; split; assumption).
  rewrite Hv.
  split; [| split].
  - intro Hle.
    assert (E : c == min_distance)
      by (unfold c, Py.max, Py.min; py_split; Lqa.lra).
    rewrite E. field. exact Hd.
  - intro Hle.
    assert (E : c == max_distance)
      by (unfold c, Py.max, Py.min; py_split; Lqa.lra).
    rewrite E. field. exact Hd.
  - intro Hin.
    assert (E : c == distance) by (apply clamp_inside; exact Hin).
    rewrite E. reflexivity.
Qed.

Lemma signal_strength_piecewise_witness :
  5 < 150 /\
  exists v,
    calculate_signal_strength 34 150 5 = Ok v /\
    (34 <= 5 -> v == 100) /\
    (150 <= 34 -> v == 0) /\
    (5 <= 34 <= 150 -> v == 100 * (150 - 34) / (150 - 5)).
Proof.
  split; [reflexivity |].
  apply (signal_strength_piecewise 34 150 5). reflexivity.
Defined.

(** X6.  With [max_distance < min_distance] the call returns 100 for
    every distance: inverted ranges give a flat, full strength. *)
Theorem signal_strength_inverted_ranges
    (distance max_distance min_distance : Q) :
  max_distance < min_distance ->
  exists v,
    calculate_signal_strength distance max_distance min_distance = Ok v /\
    v == 100.
Proof.
  intro H.
  assert (Hne : ~ max_distance == min_distance) by Lqa.lra.
  assert (Hd : ~ max_distance - min_distance == 0) by Lqa.lra.
  eexists. split; [apply calculate_signal_strength_ok; exact Hne |].
  assert (E : Py.max min_distance (Py.min max_distance distance)
              == min_distance)
    by (unfold Py.max, Py.min; py_split; Lqa.lra).
  assert (Hq : 100 * (max_distance
                      - Py.max min_distance (Py.min max_distance distance))
               / (max_distance - min_distance) == 100).
  { rewrite E. field. exact Hd. }
  revert Hq.
  generalize (100 * (max_distance
                     - Py.max min_distance (Py.min max_distance distance))
              / (max_distance - min_distance)).
  intros q Hq. unfold Py.max, Py.min. py_split; Lqa.lra.
Qed.

Lemma signal_strength_inverted_ranges_witness :
  50 < 60 /\
  exists v, calculate_signal_strength 200 50 60 = Ok v /\ v == 100.
Proof.
  split; [reflexivity |].
  apply (signal_strength_inverted_ranges 200 50 60). reflexivity.
Defined.

(** ** The tower scan *)

Lemma prefix_app (a b : string) :
  String.prefix a b = true <-> exists rest, b = (a ++ rest)%string.
Proof.
  revert b. induction a as [| ch a IH]; intro b.
  - split; [intros _; exists b; reflexivity |].
    intros _. destruct b; reflexivity.
  - destruct b as [| ch' b]; cbn [String.prefix String.append].
    + split; [discriminate | intros [rest H]; discriminate H].
    + destruct (Ascii.ascii_dec ch ch') as [-> | Hne].
      * rewrite IH. split; intros [rest H]; exists rest.
        -- now rewrite H.
        -- now injection H.
      * split; [discriminate |].
        intros [rest H]. injection H as H1 _. congruence.
Qed.

Lemma str_in_unfold (needle hay : string) :
  str_in needle hay =
    if String.prefix needle hay then true
    else match hay with
         | EmptyString => false
         | String _ rest => str_in needle rest
         end.
Proof. destruct hay; reflexivity. Qed.

(** [str_in] is the substring test of Python's [in]. *)
Lemma str_in_substring (needle hay : string) :
  str_in needle hay = true <->
  exists before after, hay = (before ++ needle ++ after)%string.
Proof.
  split.
  - induction hay as [| ch hay IH]; rewrite str_in_unfold;
      destruct (String.prefix needle _) eqn:E.
    + intros _. apply prefix_app in E. destruct E as [rest E].
      exists EmptyString, rest. exact E.
    + discriminate.
    + intros _. apply prefix_app in E. destruct E as [rest E].
      exists EmptyString, rest. exact E.
    + intro H. destruct (IH H) as (before & after & ->).
      exists (String ch before), after. reflexivity.
  - intros (before & after & ->).
    induction before as [| ch before IH]; rewrite str_in_unfold.
    + cbn [String.append].
      replace (String.prefix needle (needle ++ after)) with true;
        [reflexivity |].
      symmetry. apply prefix_app. exists after. reflexivity.
    + destruct (String.prefix needle _); [reflexivity |].
      cbn [String.append]. exact IH.
Qed.

Lemma visibility_eqb_invisible (v : visibility) :
  visibility_eqb v invisible = false <-> v <> invisible.
Proof. destruct v; cbn; split; congruence. Qed.

(** The test the scan makes on a prim. *)
Lemma scan_keeps_iff (p : prim) :
  (str_in "Tower" (GetName p) && IsA_Xformable p
   && negb (visibility_eqb (GetVisibility p) invisible) = true)
  <-> is_visible_tower p.
Proof.
  unfold is_visible_tower.
  rewrite !andb_true_iff, negb_true_iff, str_in_substring,
    visibility_eqb_invisible.
  tauto.
Qed.

Lemma scan_towers_cons (p : prim) (rest : list prim) :
  scan_towers (p :: rest) =
    if str_in "Tower" (GetName p) && IsA_Xformable p
       && negb (visibility_eqb (GetVisibility p) invisible)
    then tower_of p :: scan_towers rest
    else scan_towers rest.
Proof.
  cbn [scan_towers]. unfold tower_of.
  destruct (str_in "Tower" (GetName p) && IsA_Xformable p);
    [| reflexivity].
  destruct (visibility_eqb (GetVisibility p) invisible); reflexivity.
Qed.

Lemma scan_towers_In (traverse : list prim) (t : vec3) :
  In t (scan_towers traverse) <->
  exists p, In p traverse /\ is_visible_tower p /\ t = tower_of p.
Proof.
  revert t.
  induction traverse as [| p rest IH]; intro t.
  + split; [intros [] | intros (p & [] & _)].
  + rewrite scan_towers_cons.
    destruct (str_in "Tower" (GetName p) && IsA_Xformable p
              && negb (visibility_eqb (GetVisibility p) invisible))
      eqn:E.
    * apply scan_keeps_iff in E. split.
      -- intros [<- | H].
         ++ exists p. split; [now left | split; [exact E | reflexivity]].
         ++ apply IH in H. destruct H as (q & Hq & Hv & Ht).
            exists q. split; [now right | split; assumption].
      -- intros (q & [<- | Hq] & Hv & ->); [now left |].
         right. apply IH. exists q. split; [exact Hq | split; auto].
    * split.
      -- intro H. apply IH in H. destruct H as (q & Hq & Hv & Ht).
         exists q. split; [now right | split; assumption].
      -- intros (q & [<- | Hq] & Hv & ->).
         ++ apply scan_keeps_iff in Hv. congruence.
         ++ apply IH. exists q. split; [exact Hq | split; auto].
Qed.

Lemma scan_towers_app (l1 l2 : list prim) :
  scan_towers (l1 ++ l2) = scan_towers l1 ++ scan_towers l2.
Proof.
  induction l1 as [| p l1 IH]; [reflexivity |].
  cbn [app]. rewrite !scan_towers_cons.
  destruct (str_in "Tower" (GetName p) && IsA_Xformable p
            && negb (visibility_eqb (GetVisibility p) invisible));
    [cbn [app]; f_equal |]; exact IH.
Qed.

Lemma scan_towers_length (traverse : list prim) :
  (List.length (scan_towers traverse) <= List.length traverse)%nat.
Proof.
  induction traverse as [| p rest IH]; [apply le_n |].
  rewrite scan_towers_cons. cbn [List.length].
  destruct (str_in "Tower" (GetName p) && IsA_Xformable p
            && negb (visibility_eqb (GetVisibility p) invisible));
    cbn [List.length]; lia.
Qed.

(** X7.  The scan returns a tower exactly for the prims whose name
    contains [Tower], that are Xformable and whose visibility is not
    ['invisible']; the tower is the single precision storage of the
    prim's translation raised by 5; and the scan of a traversal in
    two parts is the two scans in order. *)
Theorem scan_towers_membership (traverse : list prim) :
  (forall t,
     In t (scan_towers traverse) <->
     exists p, In p traverse /\ is_visible_tower p /\ t = tower_of p) /\
  (forall l1 l2,
     traverse = l1 ++ l2 ->
     scan_towers traverse = scan_towers l1 ++ scan_towers l2) /\
  (List.length (scan_towers traverse) <= List.length traverse)%nat.
Proof.
  split; [| split].
  - intro t. apply scan_towers_In.
  - intros l1 l2 ->. apply scan_towers_app.
  - apply scan_towers_length.
Qed.

Lemma scan_towers_membership_witness :
  In (GfVec3f 0 0 5) (scan_towers [tower_at_origin]) <->
  exists p, In p [tower_at_origin] /\ is_visible_tower p /\
            GfVec3f 0 0 5 = tower_of p.
Proof.
  exact (proj1 (scan_towers_membership [tower_at_origin]) (GfVec3f 0 0 5)).
Defined.

(** X8.  When no prim of the stage is a visible tower (no such name,
    not Xformable, or hidden), the pass hides the display object and
    clears its arrays. *)
Theorem hidden_towers_hide_visualizer (cfg : config) (g : rng) (s : stage) :
  (forall p, In p (prims s) -> ~ is_visible_tower p) ->
  snd (generate_heatmap cfg g s) = Ok None /\
  visualizer (fst (generate_heatmap cfg g s))
  = Some {| visibility_attr := invisible;
            points_attr := Some [];
            display_color_attr := Some [];
            widths_attr := None |}.
Proof.
  intro H.
  assert (Hscan : scan_towers (prims s) = []).
  { induction (prims s) as [| p rest IH]; [reflexivity |].
    rewrite scan_towers_cons.
    destruct (str_in "Tower" (GetName p) && IsA_Xformable p
              && negb (visibility_eqb (GetVisibility p) invisible)) eqn:E.
    - apply scan_keeps_iff in E. exfalso. apply (H p); [now left | exact E].
    - apply IH. intros q Hq. apply H. now right. }
  rewrite generate_heatmap_no_towers by exact Hscan. split; reflexivity.
Qed.

Lemma hidden_towers_hide_visualizer_witness :
  (forall p, In p (prims hidden_tower_stage) -> ~ is_visible_tower p) /\
  snd (generate_heatmap default_config half_rng hidden_tower_stage)
  = Ok None.
Proof.
  assert (H : forall p, In p (prims hidden_tower_stage) ->
                        ~ is_visible_tower p).
  { intros p [<- | [<- | []]] Hv; apply scan_keeps_iff in Hv;
      discriminate Hv. }
  split; [exact H |].
  exact (proj1 (hidden_towers_hide_visualizer default_config half_rng
                  hidden_tower_stage H)).
Defined.

(** ** Samples, one by one *)

Lemma emits_refl (P : point -> color -> Prop) (st : gen_state) :
  emits 0 P st st.
Proof.
  exists [], []. rewrite !app_nil_r.
  repeat split; [constructor | lia].
Qed.

Lemma emits_trans (k1 k2 : nat) (P : point -> color -> Prop)
    (st1 st2 st3 : gen_state) :
  emits k1 P st1 st2 -> emits k2 P st2 st3 -> emits (k1 + k2) P st1 st3.
Proof.
  intros (p1 & c1 & Hp1 & Hc1 & L1 & F1 & D1 & C1)
         (p2 & c2 & Hp2 & Hc2 & L2 & F2 & D2 & C2).
  exists (p1 ++ p2), (c1 ++ c2).
  rewrite Hp2, Hp1, Hc2, Hc1, <- !app_assoc, length_app.
  split; [reflexivity |]. split; [reflexivity |].
  split; [congruence |].
  split; [apply Forall2_app; assumption |].
  split; [congruence | lia].
Qed.

Lemma emits_weaken (k : nat) (P P' : point -> color -> Prop)
    (st st' : gen_state) :
  (forall p c, P p c -> P' p c) -> emits k P st st' -> emits k P' st st'.
Proof.
  intros HP (pts & cs & Hp & Hc & L & F & D & C).
  exists pts, cs. repeat split; auto.
  eapply Forall2_impl; eauto.
Qed.

(** A loop over [l] whose body emits [k] samples with [P], as long as
    the draws are [draw], emits [k] samples per element. *)
Lemma for_each_emits {A : Type} (draw : nat -> Q) (l : list A)
    (body : A -> M unit) (k : nat) (P : point -> color -> Prop) :
  (forall x st u st',
     In x l -> draws (rand st) = draw ->
     body x st = Ok (u, st') -> emits k P st st') ->
  forall st u st',
    draws (rand st) = draw ->
    for_each l body st = Ok (u, st') ->
    emits (List.length l * k) P st st'.
Proof.
  induction l as [| x rest IH]; intros Hbody st u st' Hd H.
  - cbn in H. unfold ret in H. injection H as _ <-. apply emits_refl.
  - cbn [for_each] in H. unfold bind in H.
    destruct (body x st) as [[u1 st1] |] eqn:E; [| discriminate].
    cbn [List.length Nat.mul].
    assert (E1 : emits k P st st1)
      by (eapply Hbody; [now left | exact Hd | exact E]).
    eapply emits_trans; [exact E1 |].
    eapply IH; [| | exact H].
    + intros y s0 u0 s1 Hy. apply Hbody. now right.
    + destruct E1 as (_ & _ & _ & _ & _ & _ & D & _). congruence.
Qed.

Section OneTowerSamples.

Variables (draw : nat -> Q) (origin : vec3) (max_range min_range : Q).

Lemma sample_body_emits (ring_idx : nat) (st : gen_state) (u : unit)
    (st' : gen_state) :
  draws (rand st) = draw ->
  sample_body origin (at2 origin - 5)
    (ring_distance max_range min_range ring_idx) max_range min_range st
  = Ok (u, st') ->
  emits 1
    (fun p c =>
       exists n, sample_at draw origin max_range min_range ring_idx n p c)
    st st'.
Proof.
  intros Hd. subst draw.
  unfold sample_body, bind, random_uniform, uniform, random, try_,
    append_point, append_color, ret.
  cbn [rand final_points final_colors draws cursor].
  destruct (calculate_signal_strength _ max_range min_range) as [v |] eqn:E;
    [| discriminate].
  destruct (Py.ltb 50 v) eqn:Ev;
    cbn [rand final_points final_colors draws cursor];
    intro H; injection H as _ <-;
    cbn [rand final_points final_colors draws cursor];
    (eexists [_], [_];
     split; [reflexivity |]; split; [reflexivity |];
     split; [reflexivity |];
     split; [| split; [reflexivity | cbn [rand cursor]; lia]];
     constructor; [| constructor];
     exists (cursor (rand st)), v;
     unfold sample_distance, uniform_value;
     split; [exact E |];
     split; [reflexivity |];
     eexists (Point _ _ _); cbn [px py pz]; rewrite Ev;
     split; [reflexivity |]; repeat split).
Qed.

Lemma ring_body_emits (points_per_ring : Z) (ring_idx : nat)
    (st : gen_state) (u : unit) (st' : gen_state) :
  draws (rand st) = draw ->
  ring_body origin (at2 origin - 5) points_per_ring max_range min_range
    ring_idx st = Ok (u, st') ->
  emits (Z.to_nat points_per_ring)
    (fun p c =>
       exists n, sample_at draw origin max_range min_range ring_idx n p c)
    st st'.
Proof.
  intro Hd. unfold ring_body, bind, try_.
  change (1 <? num_rings)%Z with true. cbv iota.
  rewrite div_ok by apply ring_divisor_nonzero.
  intro H.
  eapply for_each_emits with (k := 1%nat) in H; [| | exact Hd].
  - rewrite range_length, Nat.mul_1_r in H. exact H.
  - intros x s0 u0 s1 _ Hd0 Hs. cbv beta in Hs.
    exact (sample_body_emits ring_idx s0 u0 s1 Hd0 Hs).
Qed.

Lemma tower_body_emits (points_per_tower : Z) (st : gen_state) (u : unit)
    (st' : gen_state) :
  draws (rand st) = draw ->
  tower_body points_per_tower max_range min_range origin st = Ok (u, st') ->
  emits (points_of_tower points_per_tower)
    (fun p c =>
       exists ring_idx n,
         (ring_idx < 20)%nat /\
         sample_at draw origin max_range min_range ring_idx n p c)
    st st'.
Proof.
  intros Hd H. unfold tower_body in H.
  eapply for_each_emits
    with (k := Z.to_nat (points_per_tower / num_rings)) in H;
    [| | exact Hd].
  - rewrite range_length in H. exact H.
  - intros i s0 u0 s1 Hi Hd0 Hs.
    apply (ring_body_emits _ _ _ _ _ Hd0) in Hs.
    eapply emits_weaken; [| exact Hs].
    intros p c [n Hn]. exists i, n. split; [| exact Hn].
    unfold range in Hi. apply in_seq in Hi. cbn in Hi. lia.
Qed.

End OneTowerSamples.

(** A generation that returns has emitted, per tower, the samples of
    its rings, reading three draws per sample. *)
Lemma generate_points_emits (cfg : config) (towers : list vec3)
    (st : gen_state) (u : unit) (st' : gen_state) :
  generate_points cfg towers st = Ok (u, st') ->
  emits (List.length towers * points_of_tower (POINTS_PER_TOWER cfg))
    (tower_sample (draws (rand st)) (MAX_SIGNAL_RANGE cfg)
       (MIN_SIGNAL_RANGE cfg) towers)
    st st'.
Proof.
  unfold generate_points. intro H.
  eapply for_each_emits with (draw := draws (rand st)) in H;
    [exact H | | reflexivity].
  intros origin s0 u0 s1 Ho Hd0 Hs.
  apply (tower_body_emits _ _ _ _ _ _ _ _ Hd0) in Hs.
  eapply emits_weaken; [| exact Hs].
  intros p c (i & n & Hi & Hn). exists origin, i, n. auto.
Qed.

(** After every pass the display object holds, pair by pair, samples
    of the scanned towers. *)
Lemma pass_samples (cfg : config) (g : rng) (s : stage) :
  Forall2
    (tower_sample (draws g) (MAX_SIGNAL_RANGE cfg) (MIN_SIGNAL_RANGE cfg)
       (scan_towers (prims s)))
    (emitted_points (fst (generate_heatmap cfg g s)))
    (emitted_colors (fst (generate_heatmap cfg g s))).
Proof.
  destruct (scan_towers (prims s)) as [| t ts] eqn:Hscan.
  - rewrite generate_heatmap_no_towers by exact Hscan. constructor.
  - assert (Hne : scan_towers (prims s) <> [])
      by (rewrite Hscan; discriminate).
    rewrite <- Hscan.
    destruct (generate_points cfg (scan_towers (prims s))
                (initial_gen_state g)) as [[u st] | e] eqn:E.
    + rewrite (generate_heatmap_generated cfg g s u st Hne E).
      cbn [fst emitted_points emitted_colors set_visualizer visualizer
             points_attr display_color_attr].
      apply generate_points_emits in E.
      destruct E as (pts & cs & Hp & Hc & _ & F & _ & _).
      cbn [initial_gen_state final_points final_colors rand app] in *.
      rewrite Hp, Hc. exact F.
    + rewrite (generate_heatmap_raised cfg g s e Hne E). constructor.
Qed.

(** ** What single precision storage does to a point *)

Lemma Int_part_unique (t : R) (n : Z) :
  (IZR n <= t < IZR n + 1)%R -> Int_part t = n.
Proof.
  intros [H1 H2]. symmetry. apply Int_part_spec. split; Lra.lra.
Qed.

Lemma ln_2_pos : (0 < ln 2)%R.
Proof. rewrite <- ln_1. apply ln_increasing; Lra.lra. Qed.

Lemma ln_powerRZ_2 (e : Z) : ln (powerRZ 2 e) = (IZR e * ln 2)%R.
Proof.
  rewrite powerRZ_Rpower by Lra.lra. unfold Rpower. apply ln_exp.
Qed.

Lemma Rmag_unique (x : R) (e : Z) :
  (powerRZ 2 e <= Rabs x < powerRZ 2 (e + 1))%R -> Rmag x = e.
Proof.
  intros [H1 H2]. unfold Rmag. apply Int_part_unique.
  pose proof ln_2_pos as HL.
  assert (Hp : (0 < powerRZ 2 e)%R) by (apply powerRZ_lt; Lra.lra).
  assert (Hlo : (IZR e * ln 2 <= ln (Rabs x))%R).
  { rewrite <- ln_powerRZ_2. destruct H1 as [H1 | H1].
    - left. apply ln_increasing; assumption.
    - right. now rewrite H1. }
  assert (Hhi : (ln (Rabs x) < (IZR e + 1) * ln 2)%R).
  { rewrite <- plus_IZR, <- ln_powerRZ_2. apply ln_increasing; Lra.lra. }
  assert (Hq : (ln (Rabs x) / ln 2 * ln 2 = ln (Rabs x))%R)
    by (field; Lra.lra).
  split; Lra.nra.
Qed.

Lemma Rround_half_even_IZR (m : Z) : Rround_half_even (IZR m) = m.
Proof.
  unfold Rround_half_even.
  rewrite (Int_part_unique (IZR m) m) by Lra.lra.
  destruct (Rlt_dec (IZR m - IZR m) (1 / 2)) as [_ | H]; [reflexivity |].
  exfalso. apply H. Lra.lra.
Qed.

Lemma Rround_half_even_tie (m : Z) :
  Z.even m = true -> Rround_half_even (IZR m + 1 / 2) = m.
Proof.
  intro He. unfold Rround_half_even.
  rewrite (Int_part_unique (IZR m + 1 / 2) m) by Lra.lra.
  destruct (Rlt_dec (IZR m + 1 / 2 - IZR m) (1 / 2)) as [H | _];
    [exfalso; Lra.lra |].
  destruct (Rlt_dec (1 / 2) (IZR m + 1 / 2 - IZR m)) as [H | _];
    [exfalso; Lra.lra |].
  rewrite He. reflexivity.
Qed.

Lemma powerRZ_2_nonzero (e : Z) : powerRZ 2 e <> 0%R.
Proof. apply powerRZ_NOR. Lra.lra. Qed.

(** A number on the grid of its binade is stored as it is. *)
Lemma f32_on_grid (x : R) (e m : Z) :
  (powerRZ 2 e <= Rabs x < powerRZ 2 (e + 1))%R ->
  x = (IZR m * powerRZ 2 (ulp_exponent32 e))%R ->
  f32 x = x.
Proof.
  intros He Hx. unfold f32. rewrite (Rmag_unique x e He).
  pose proof (powerRZ_2_nonzero (ulp_exponent32 e)) as Hk.
  replace (x / powerRZ 2 (ulp_exponent32 e))%R with (IZR m)
    by (rewrite Hx; field; exact Hk).
  rewrite Rround_half_even_IZR. symmetry. exact Hx.
Qed.

(** A number half way between two grid values is stored as the one
    with the even multiple. *)
Lemma f32_tie_even (x : R) (e m : Z) :
  (powerRZ 2 e <= Rabs x < powerRZ 2 (e + 1))%R ->
  x = ((IZR m + 1 / 2) * powerRZ 2 (ulp_exponent32 e))%R ->
  Z.even m = true ->
  f32 x = (IZR m * powerRZ 2 (ulp_exponent32 e))%R.
Proof.
  intros He Hx Hm. unfold f32. rewrite (Rmag_unique x e He).
  pose proof (powerRZ_2_nonzero (ulp_exponent32 e)) as Hk.
  replace (x / powerRZ 2 (ulp_exponent32 e))%R with (IZR m + 1 / 2)%R
    by (rewrite Hx; field; exact Hk).
  rewrite (Rround_half_even_tie m Hm). reflexivity.
Qed.

Lemma f32_zero : f32 0 = 0%R.
Proof.
  unfold f32.
  replace (0 / powerRZ 2 (ulp_exponent32 (Rmag 0)))%R with (IZR 0)
    by (unfold Rdiv; ring).
  rewrite Rround_half_even_IZR. ring.
Qed.

Lemma powerRZ_2_pos (p : positive) :
  powerRZ 2 (Z.pos p) = IZR (2 ^ Z.pos p).
Proof.
  unfold powerRZ. rewrite pow_IZR, positive_nat_Z. reflexivity.
Qed.

Lemma powerRZ_2_neg (p : positive) :
  powerRZ 2 (Z.neg p) = (/ IZR (2 ^ Z.pos p))%R.
Proof.
  unfold powerRZ. rewrite pow_IZR, positive_nat_Z. reflexivity.
Qed.

Lemma f32_far : f32 8388612.5 = 8388612%R.
Proof.
  rewrite (f32_tie_even 8388612.5 23 8388612).
  - change (ulp_exponent32 23) with 0%Z. cbn [powerRZ]. ring.
  - change (23 + 1)%Z with 24%Z. rewrite !powerRZ_2_pos.
    change (2 ^ 23)%Z with 8388608%Z. change (2 ^ 24)%Z with 16777216%Z.
    rewrite Rabs_pos_eq by Lra.lra. split; Lra.lra.
  - change (ulp_exponent32 23) with 0%Z. cbn [powerRZ]. Lra.lra.
  - reflexivity.
Qed.

Lemma f32_minus_ten : f32 (-10) = (-10)%R.
Proof.
  apply (f32_on_grid (-10) 3 (-10485760)).
  - change (3 + 1)%Z with 4%Z. rewrite !powerRZ_2_pos.
    change (2 ^ 3)%Z with 8%Z. change (2 ^ 4)%Z with 16%Z.
    rewrite Rabs_left by Lra.lra. split; Lra.lra.
  - change (ulp_exponent32 3) with (-20)%Z. rewrite powerRZ_2_neg.
    change (2 ^ 20)%Z with 1048576%Z. Lra.lra.
Qed.

Lemma Q2R_inject_Z (n : Z) : Q2R (inject_Z n) = IZR n.
Proof. unfold Q2R. cbn. Lra.lra. Qed.

Lemma powerRZ_2_IZR (k : Z) : (0 <= k)%Z -> powerRZ 2 k = IZR (2 ^ k).
Proof.
  intro H. destruct k as [| p | p]; [reflexivity | apply powerRZ_2_pos | lia].
Qed.

Lemma Q2R_pow2 (e : Z) : Q2R (2 ^ e) = powerRZ 2 e.
Proof.
  destruct e as [| p | p].
  - unfold Q2R. cbn. Lra.lra.
  - rewrite powerRZ_2_pos, <- Q2R_inject_Z. apply Qeq_eqR.
    rewrite Zpower_Qpower by lia. reflexivity.
  - rewrite powerRZ_2_neg, <- Q2R_inject_Z.
    change (Z.neg p) with (- Z.pos p)%Z.
    rewrite (Qeq_eqR _ _ (Qpower_opp 2 (Z.pos p))).
    rewrite Q2R_inv.
    + f_equal. apply Qeq_eqR. rewrite Zpower_Qpower by lia. reflexivity.
    + apply Qpower_not_0. discriminate.
Qed.

Lemma Rabs_Q2R (q : Q) : Rabs (Q2R q) = Q2R (Qabs q).
Proof.
  destruct (Qlt_le_dec q 0) as [H | H].
  - rewrite (Qeq_eqR _ _ (Qabs_neg q (Qlt_le_weak _ _ H))), Q2R_opp.
    apply Rabs_left. replace 0%R with (Q2R 0) by (unfold Q2R; cbn; Lra.lra).
    apply Qlt_Rlt. exact H.
  - rewrite (Qeq_eqR _ _ (Qabs_pos q H)).
    apply Rabs_pos_eq. replace 0%R with (Q2R 0) by (unfold Q2R; cbn; Lra.lra).
    apply Qle_Rle. exact H.
Qed.

Lemma Rmag_Q2R (q : Q) : ~ q == 0 -> Rmag (Q2R q) = Qmag q.
Proof.
  intro Hq.
  assert (Hn : (0 < Z.abs (Qnum q))%Z).
  { destruct q as [n d]. unfold Qeq in Hq. cbn in *. lia. }
  set (n := Z.abs (Qnum q)) in *.
  set (d := Z.pos (Qden q)).
  assert (Hd : (0 < d)%Z) by reflexivity.
  pose proof (Z.log2_spec n Hn) as [Ha1 Ha2].
  pose proof (Z.log2_spec d Hd) as [Hb1 Hb2].
  pose proof (Z.log2_nonneg n) as Ha0.
  pose proof (Z.log2_nonneg d) as Hb0.
  set (a := Z.log2 n) in *. set (b := Z.log2 d) in *.
  assert (HX : Rabs (Q2R q) = (IZR n / IZR d)%R).
  { rewrite Rabs_Q2R. destruct q as [qn qd]. reflexivity. }
  assert (HA : powerRZ 2 a = IZR (2 ^ a)) by (apply powerRZ_2_IZR; lia).
  assert (HB : powerRZ 2 b = IZR (2 ^ b)) by (apply powerRZ_2_IZR; lia).
  assert (Hsucc : forall k, (0 <= k)%Z -> (2 ^ Z.succ k = 2 * 2 ^ k)%Z)
    by (intros; apply Z.pow_succ_r; assumption).
  rewrite Hsucc in Ha2, Hb2 by assumption.
  apply IZR_le in Ha1, Hb1. apply IZR_lt in Ha2, Hb2, Hn, Hd.
  rewrite mult_IZR in Ha2, Hb2.
  assert (HpA : (0 < IZR (2 ^ a))%R) by (rewrite <- HA; apply powerRZ_lt; Lra.lra).
  assert (HpB : (0 < IZR (2 ^ b))%R) by (rewrite <- HB; apply powerRZ_lt; Lra.lra).
  assert (He : forall k, powerRZ 2 (a - b + k)
                         = (IZR (2 ^ a) / IZR (2 ^ b) * powerRZ 2 k)%R).
  { intro k. unfold Z.sub. rewrite !powerRZ_add by Lra.lra.
    rewrite powerRZ_neg', HA, HB. reflexivity. }
  set (A := IZR (2 ^ a)) in *. set (B := IZR (2 ^ b)) in *.
  set (N := IZR n) in *. set (D := IZR d) in *.
  assert (HXD : (Rabs (Q2R q) * D = N)%R) by (rewrite HX; field; Lra.lra).
  assert (HXpos : (0 < Rabs (Q2R q))%R).
  { rewrite HX. apply Rdiv_lt_0_compat; assumption. }
  assert (Hdiv : forall x c, (0 < c)%R -> (x / c * c = x)%R)
    by (intros; field; Lra.lra).
  pose proof (Hdiv A B HpB) as HAB.
  unfold Qmag. fold n. fold d. fold a. fold b.
  destruct (Qle_bool (2 ^ (a - b)) (Qabs q)) eqn:Et.
  - apply Rmag_unique. split.
    + rewrite <- Q2R_pow2, Rabs_Q2R. apply Qle_Rle.
      apply Qle_bool_iff. exact Et.
    + rewrite He. change (powerRZ 2 1) with (2 * 1)%R.
      set (X := Rabs (Q2R q)) in *. set (R0 := (A / B)%R) in *.
      Lra.nra.
  - apply Rmag_unique. split.
    + replace (a - b - 1)%Z with (a - b + -1)%Z by lia.
      rewrite He. change (powerRZ 2 (-1)) with (/ (2 * 1))%R.
      set (X := Rabs (Q2R q)) in *. set (R0 := (A / B)%R) in *.
      assert (Hh : (R0 * / (2 * 1) * 2 = R0)%R) by (field).
      Lra.nra.
    + replace (a - b - 1 + 1)%Z with (a - b)%Z by lia.
      rewrite <- Q2R_pow2, Rabs_Q2R. apply Qlt_Rlt.
      apply Qnot_le_lt. intro Hle. apply Qle_bool_iff in Hle. congruence.
Qed.

Lemma Int_part_Q2R (t : Q) : Int_part (Q2R t) = Qfloor t.
Proof.
  apply Int_part_unique. split.
  - rewrite <- Q2R_inject_Z. apply Qle_Rle. apply Qfloor_le.
  - replace (IZR (Qfloor t) + 1)%R with (Q2R (inject_Z (Qfloor t + 1))).
    + apply Qlt_Rlt. apply Qlt_floor.
    + rewrite Q2R_inject_Z, plus_IZR. reflexivity.
Qed.

Lemma Rround_half_even_Q2R (t : Q) :
  Rround_half_even (Q2R t) = round_half_even t.
Proof.
  unfold Rround_half_even, round_half_even.
  rewrite Int_part_Q2R.
  set (n := Qfloor t).
  assert (Hf : (Q2R t - IZR n)%R = Q2R (t - inject_Z n))
    by (rewrite Q2R_minus, Q2R_inject_Z; reflexivity).
  assert (Hh : (1 / 2)%R = Q2R (1 # 2)) by (unfold Q2R; cbn; Lra.lra).
  rewrite Hf, Hh.
  destruct (Qcompare_spec (t - inject_Z n) (1 # 2)) as [E | L | G].
  - apply Qeq_eqR in E.
    destruct (Rlt_dec _ _) as [H | _]; [exfalso; Lra.lra |].
    destruct (Rlt_dec _ _) as [H | _]; [exfalso; Lra.lra |].
    reflexivity.
  - apply Qlt_Rlt in L.
    destruct (Rlt_dec _ _) as [_ | H]; [reflexivity | contradiction].
  - apply Qlt_Rlt in G.
    destruct (Rlt_dec _ _) as [H | _]; [exfalso; Lra.lra |].
    destruct (Rlt_dec _ _) as [_ | H]; [reflexivity | contradiction].
Qed.

(** The two storage functions are one: on a rational, [f32] gives the
    value [f32Q] computes. *)
Lemma f32_Q2R (q : Q) : f32 (Q2R q) = Q2R (f32Q q).
Proof.
  unfold f32Q. rewrite (Qeq_eqR _ _ (Qred_correct _)).
  rewrite Q2R_mult, Q2R_inject_Z, Q2R_pow2.
  destruct (Qeq_dec q 0) as [Hz | Hnz].
  - rewrite (Qeq_eqR _ _ Hz).
    replace (Q2R 0) with 0%R by (unfold Q2R; cbn; Lra.lra).
    rewrite f32_zero.
    assert (Ht : round_half_even (q / 2 ^ ulp_exponent32 (Qmag q)) = 0%Z).
    { rewrite <- Rround_half_even_Q2R.
      assert (Hq0 : forall y, q / y == 0)
        by (intro y; rewrite Hz; unfold Qdiv; ring).
      rewrite (Qeq_eqR _ 0 (Hq0 _)).
      replace (Q2R 0) with (IZR 0) by (unfold Q2R; cbn; Lra.lra).
      apply Rround_half_even_IZR. }
    rewrite Ht. ring.
  - unfold f32. rewrite (Rmag_Q2R q Hnz).
    rewrite <- Rround_half_even_Q2R.
    rewrite Q2R_div by (apply Qpower_not_0; discriminate).
    rewrite Q2R_pow2. reflexivity.
Qed.

(** The first sample of a loop reads the source where the loop
    starts. *)
Lemma sample_body_first (draw : nat -> Q) (origin : vec3)
    (max_range min_range : Q) (ring_idx : nat) (st : gen_state) (u : unit)
    (st' : gen_state) :
  draws (rand st) = draw ->
  sample_body origin (at2 origin - 5)
    (ring_distance max_range min_range ring_idx) max_range min_range st
  = Ok (u, st') ->
  exists p c,
    final_points st' = final_points st ++ [p] /\
    sample_at draw origin max_range min_range ring_idx (cursor (rand st)) p c.
Proof.
  intros Hd. subst draw.
  unfold sample_body, bind, random_uniform, uniform, random, try_,
    append_point, append_color, ret.
  cbn [rand final_points final_colors draws cursor].
  destruct (calculate_signal_strength _ max_range min_range) as [v |] eqn:E;
    [| discriminate].
  destruct (Py.ltb 50 v) eqn:Ev;
    cbn [rand final_points final_colors draws cursor];
    intro H; injection H as _ <-;
    cbn [rand final_points final_colors draws cursor];
    (do 2 eexists; split; [reflexivity |];
     exists v; unfold sample_distance, uniform_value;
     split; [exact E |]; split; [reflexivity |];
     eexists (Point _ _ _); cbn [px py pz]; rewrite Ev;
     split; [reflexivity |]; repeat split).
Qed.

(** After the first element of a loop, the loop only appends. *)
Lemma for_each_first {A : Type} (draw : nat -> Q) (x : A) (rest : list A)
    (body : A -> M unit) (k : nat) (P : point -> color -> Prop)
    (st : gen_state) (u : unit) (st' : gen_state) :
  (forall y s0 u0 s1,
     draws (rand s0) = draw -> body y s0 = Ok (u0, s1) -> emits k P s0 s1) ->
  draws (rand st) = draw ->
  for_each (x :: rest) body st = Ok (u, st') ->
  exists u1 s1 pts,
    body x st = Ok (u1, s1) /\
    final_points st' = final_points s1 ++ pts.
Proof.
  intros Hbody Hd. cbn [for_each]. unfold bind.
  destruct (body x st) as [[u1 s1] |] eqn:E; [| discriminate].
  intro H. exists u1, s1.
  assert (Hd1 : draws (rand s1) = draw).
  { destruct (Hbody x st u1 s1 Hd E) as (_ & _ & _ & _ & _ & _ & D & _).
    congruence. }
  eapply for_each_emits with (draw := draw) in H;
    [| intros y s0 u0 s2 _; apply Hbody | exact Hd1].
  destruct H as (pts & _ & Hp & _).
  exists pts. split; [reflexivity | exact Hp].
Qed.

(** With a tower, at least one sample per ring and distinct ranges,
    the first emitted point is the sample of ring 0 around the first
    tower that reads the source from its start. *)
Lemma first_emitted_point (cfg : config) (g : rng) (s : stage)
    (origin : vec3) (towers : list vec3) :
  scan_towers (prims s) = origin :: towers ->
  (20 <= POINTS_PER_TOWER cfg)%Z ->
  ~ MAX_SIGNAL_RANGE cfg == MIN_SIGNAL_RANGE cfg ->
  exists p c rest,
    emitted_points (fst (generate_heatmap cfg g s)) = p :: rest /\
    sample_at (draws g) origin (MAX_SIGNAL_RANGE cfg) (MIN_SIGNAL_RANGE cfg)
      0 (cursor g) p c.
Proof.
  intros Hscan Hp Hne.
  assert (Hs : scan_towers (prims s) <> [])
    by (rewrite Hscan; discriminate).
  destruct (generate_points_total cfg (scan_towers (prims s))
              (initial_gen_state g) (or_intror Hne)) as [st' E].
  rewrite (generate_heatmap_generated cfg g s tt st' Hs E).
  cbn [fst emitted_points set_visualizer visualizer points_attr].
  rewrite Hscan in E. unfold generate_points in E.
  set (draw := draws g).
  assert (Hd0 : draws (rand (initial_gen_state g)) = draw) by reflexivity.
  destruct (for_each_first draw _ _ _ _ _ _ _ _
              (fun y s0 u0 s1 Hd H =>
                 emits_weaken _ _ (fun _ _ => True) _ _ (fun _ _ _ => I)
                   (tower_body_emits draw y _ _ _ s0 u0 s1 Hd H)) Hd0 E)
    as (u1 & s1 & pts1 & Et & H1).
  unfold tower_body in Et.
  change (range num_rings) with (0%nat :: seq 1 19) in Et.
  destruct (for_each_first draw _ _ _ _ _ _ _ _
              (fun y s0 u0 s1 Hd H =>
                 emits_weaken _ _ (fun _ _ => True) _ _ (fun _ _ _ => I)
                   (ring_body_emits draw origin _ _ _ y s0 u0 s1 Hd H))
              Hd0 Et)
    as (u2 & s2 & pts2 & Er & H2).
  unfold ring_body, bind, try_ in Er.
  change (1 <? num_rings)%Z with true in Er. cbv iota in Er.
  rewrite div_ok in Er by apply ring_divisor_nonzero.
  unfold range in Er.
  destruct (Z.to_nat (POINTS_PER_TOWER cfg / num_rings)) as [| m] eqn:Em.
  { exfalso. unfold num_rings in Em.
    pose proof (Z.div_le_lower_bound (POINTS_PER_TOWER cfg) 20 1). lia. }
  cbn [seq] in Er.
  destruct (for_each_first draw _ _ _ _ _ _ _ _
              (fun (y : nat) s0 u0 s1 Hd H =>
                 emits_weaken _ _ (fun _ _ => True) _ _ (fun _ _ _ => I)
                   (sample_body_emits draw origin _ _ 0 s0 u0 s1 Hd H))
              Hd0 Er)
    as (u3 & s3 & pts3 & Es & H3).
  destruct (sample_body_first draw origin _ _ 0 _ u3 s3 Hd0 Es)
    as (p & c & Hp0 & Hsample).
  exists p, c, (pts3 ++ pts2 ++ pts1).
  split; [| exact Hsample].
  rewrite H1, H2, H3, Hp0. cbn [initial_gen_state final_points app].
  rewrite <- !app_assoc. reflexivity.
Qed.

(** With a source that only draws 0 the first sample points along
    the x axis. *)
Lemma first_point_along_x (cfg : config) (s : stage) (origin : vec3)
    (towers : list vec3) :
  scan_towers (prims s) = origin :: towers ->
  (20 <= POINTS_PER_TOWER cfg)%Z ->
  ~ MAX_SIGNAL_RANGE cfg == MIN_SIGNAL_RANGE cfg ->
  exists p rest,
    emitted_points (fst (generate_heatmap cfg zero_rng s)) = p :: rest /\
    px p = f32 (Q2R (at0 origin)
                + Q2R (sample_distance (draws zero_rng)
                         (MAX_SIGNAL_RANGE cfg) (MIN_SIGNAL_RANGE cfg) 0 0)) /\
    py p = f32 (Q2R (at1 origin)).
Proof.
  intros Hscan Hp Hne.
  destruct (first_emitted_point cfg zero_rng s origin towers Hscan Hp Hne)
    as (p & c & rest & He & v & _ & _ & q & -> & Hx & Hy & _).
  exists (Vec3f_of q), rest. split; [exact He |].
  assert (Ha : Q2R (uniform_value 0 (2 * math_pi) (draws zero_rng
                                                      (cursor zero_rng)))
               = 0%R).
  { replace 0%R with (Q2R 0) by (unfold Q2R; cbn; Lra.lra).
    apply Qeq_eqR. reflexivity. }
  rewrite Ha, cos_0 in Hx. rewrite Ha, sin_0 in Hy.
  cbn [Vec3f_of px py]. rewrite Hx, Hy.
  change (cursor zero_rng) with 0%nat.
  split; apply f_equal; ring.
Qed.

Lemma single_tower_chunks (P : vec3 -> point -> Prop) (origin : vec3)
    (l : list point) :
  (exists chunks,
     l = List.concat chunks /\
     Forall2 (fun o chunk => Forall (P o) chunk) [origin] chunks) ->
  Forall (P origin) l.
Proof.
  intros (chunks & -> & F).
  inversion F as [| o ch os chs Hch Hrest]; subst.
  inversion Hrest; subst. cbn [List.concat]. rewrite app_nil_r. exact Hch.
Qed.

(** The first point of the far tower: placed 5 away at x = 8388612.5,
    stored at x = 8388612, which is 4.5 away. *)
Lemma far_point_distance (p : point) :
  px p = f32 (Q2R (16777215 # 2)
              + Q2R (sample_distance (draws zero_rng) 150 5 0 0)) ->
  py p = f32 (Q2R 0) ->
  planar_distance (GfVec3f (16777215 # 2) 0 5) p = 4.5%R.
Proof.
  intros Hx Hy.
  assert (H0 : Q2R 0 = 0%R) by (unfold Q2R; cbn; Lra.lra).
  assert (H5 : Q2R (sample_distance (draws zero_rng) 150 5 0 0) = 5%R).
  { rewrite (Qeq_eqR _ 5) by reflexivity. unfold Q2R; cbn; Lra.lra. }
  assert (Ht : Q2R (16777215 # 2) = 8388607.5%R)
    by (unfold Q2R; cbn; Lra.lra).
  unfold planar_distance. cbn [at0 at1].
  rewrite Hx, Hy, H0, H5, Ht, f32_zero.
  replace (8388607.5 + 5)%R with 8388612.5%R by Lra.lra.
  rewrite f32_far.
  replace ((8388612 - 8388607.5) * (8388612 - 8388607.5)
           + (0 - 0) * (0 - 0))%R
    with (4.5 * 4.5)%R by Lra.lra.
  apply sqrt_square. Lra.lra.
Qed.

(** The first point under a minimum range of -10: placed at the
    signed distance -10, so 10 away. *)
Lemma negative_point_distance (p : point) :
  px p = f32 (Q2R 0 + Q2R (sample_distance (draws zero_rng) 5 (-10) 0 0)) ->
  py p = f32 (Q2R 0) ->
  planar_distance (GfVec3f 0 0 5) p = 10%R.
Proof.
  intros Hx Hy.
  assert (H0 : Q2R 0 = 0%R) by (unfold Q2R; cbn; Lra.lra).
  assert (Hd : Q2R (sample_distance (draws zero_rng) 5 (-10) 0 0)
               = (-10)%R).
  { rewrite (Qeq_eqR _ (-10)) by reflexivity. unfold Q2R; cbn; Lra.lra. }
  unfold planar_distance. cbn [at0 at1].
  rewrite Hx, Hy, H0, Hd, f32_zero.
  replace (0 + -10)%R with (-10)%R by Lra.lra.
  rewrite f32_minus_ten.
  replace ((-10 - 0) * (-10 - 0) + (0 - 0) * (0 - 0))%R
    with (10 * 10)%R by Lra.lra.
  apply sqrt_square. Lra.lra.
Qed.

(** The claim of C8 as it is stated fails twice.  A tower at
    x = 8388607.5 with the default ranges: the first sample is placed
    5 away and stored 4.5 away, below [MIN_SIGNAL_RANGE].  A tower at
    the origin with ranges -10 and 5: the first sample is placed at
    the signed distance -10, so 10 away, above [MAX_SIGNAL_RANGE]. *)
Lemma stored_point_leaves_range :
  (MIN_SIGNAL_RANGE coarse_config <= MAX_SIGNAL_RANGE coarse_config /\
   0 <= MIN_SIGNAL_RANGE coarse_config /\
   ~ exists chunks,
       emitted_points
         (fst (generate_heatmap coarse_config zero_rng far_tower_stage))
       = List.concat chunks /\
       Forall2
         (fun origin chunk =>
            Forall
              (within_range (MIN_SIGNAL_RANGE coarse_config)
                 (MAX_SIGNAL_RANGE coarse_config) origin)
              chunk)
         (scan_towers (prims far_tower_stage)) chunks) /\
  (MIN_SIGNAL_RANGE negative_config <= MAX_SIGNAL_RANGE negative_config /\
   ~ exists chunks,
       emitted_points
         (fst (generate_heatmap negative_config zero_rng one_tower_stage))
       = List.concat chunks /\
       Forall2
         (fun origin chunk =>
            Forall
              (within_range (MIN_SIGNAL_RANGE negative_config)
                 (MAX_SIGNAL_RANGE negative_config) origin)
              chunk)
         (scan_towers (prims one_tower_stage)) chunks).
Proof.
  split.
  - split; [discriminate |]. split; [discriminate |].
    intro H.
    assert (Hscan : scan_towers (prims far_tower_stage)
                    = [GfVec3f (16777215 # 2) 0 5]) by reflexivity.
    rewrite Hscan in H. apply single_tower_chunks in H.
    destruct (first_point_along_x coarse_config far_tower_stage _ _ Hscan)
      as (p & rest & He & Hx & Hy); [discriminate | discriminate |].
    rewrite He in H. inversion H as [| p' l' [Hlo _] _]; subst.
    rewrite (far_point_distance p Hx Hy) in Hlo.
    assert (H5 : Q2R (MIN_SIGNAL_RANGE coarse_config) = 5%R)
      by (unfold Q2R; cbn; Lra.lra).
    rewrite H5 in Hlo. Lra.lra.
  - split; [discriminate |].
    intro H.
    assert (Hscan : scan_towers (prims one_tower_stage) = [GfVec3f 0 0 5])
      by reflexivity.
    rewrite Hscan in H. apply single_tower_chunks in H.
    destruct (first_point_along_x negative_config one_tower_stage _ _ Hscan)
      as (p & rest & He & Hx & Hy); [discriminate | discriminate |].
    rewrite He in H. inversion H as [| p' l' [_ Hhi] _]; subst.
    rewrite (negative_point_distance p Hx Hy) in Hhi.
    assert (H5 : Q2R (MAX_SIGNAL_RANGE negative_config) = 5%R)
      by (unfold Q2R; cbn; Lra.lra).
    rewrite H5 in Hhi. Lra.lra.
Qed.

(** ** What every pass leaves on the display object *)

(** X9.  After every pass, however it ends, the colour array is as
    long as the point array, and the width array holds [POINT_SIZE]
    once per point. *)
Theorem pass_arrays_agree (cfg : config) (g : rng) (s : stage) :
  List.length (emitted_colors (fst (generate_heatmap cfg g s)))
  = List.length (emitted_points (fst (generate_heatmap cfg g s))) /\
  emitted_widths (fst (generate_heatmap cfg g s))
  = repeat (POINT_SIZE cfg)
      (List.length (emitted_points (fst (generate_heatmap cfg g s)))).
Proof.
  destruct (scan_towers (prims s)) as [| t ts] eqn:Hscan.
  - rewrite generate_heatmap_no_towers by exact Hscan. split; reflexivity.
  - assert (Hne : scan_towers (prims s) <> [])
      by (rewrite Hscan; discriminate).
    destruct (generate_points cfg (scan_towers (prims s))
                (initial_gen_state g)) as [[u st] | e] eqn:E.
    + rewrite (generate_heatmap_generated cfg g s u st Hne E).
      cbn [fst emitted_points emitted_colors emitted_widths set_visualizer
             visualizer points_attr display_color_attr widths_attr].
      apply generated_lengths in E. destruct E as [_ E].
      split; [exact E | reflexivity].
    + rewrite (generate_heatmap_raised cfg g s e Hne E).
      split; reflexivity.
Qed.

Lemma signal_strength_in_range (d mx mn v : Q) :
  calculate_signal_strength d mx mn = Ok v -> 0 <= v <= 100.
Proof.
  unfold calculate_signal_strength.
  destruct (Py.div _ _) as [q |]; [| discriminate].
  intro H. injection H as <-. apply clamp_bounds. Lqa.lra.
Qed.

Lemma signal_strength_inside (d mx mn v : Q) :
  mn < mx -> mn <= d <= mx ->
  calculate_signal_strength d mx mn = Ok v ->
  v == 100 * (mx - d) / (mx - mn).
Proof.
  intros H Hin E.
  rewrite calculate_signal_strength_ok in E by Lqa.lra.
  injection E as <-.
  assert (Hc : Py.max mn (Py.min mx d) == d) by (apply clamp_inside; exact Hin).
  assert (Hlo : 0 <= 100 * (mx - d) / (mx - mn)).
  { apply Qle_shift_div_l; Lqa.lra. }
  assert (Hhi : 100 * (mx - d) / (mx - mn) <= 100).
  { apply Qle_shift_div_r; Lqa.lra. }
  set (q := 100 * (mx - Py.max mn (Py.min mx d)) / (mx - mn)).
  assert (Hq : q == 100 * (mx - d) / (mx - mn))
    by (unfold q; rewrite Hc; reflexivity).
  rewrite (clamp_inside 0 100 q) by (rewrite Hq; split; assumption).
  exact Hq.
Qed.

Lemma reverse_gradient_inside (v : Q) :
  0 <= v <= 100 -> reverse_signal (calculate_gradient_color v) == v.
Proof.
  intros [H1 H2].
  unfold reverse_signal, calculate_gradient_color, strong_branch,
    weak_branch, Py.max, Py.min.
  py_split; cbn [red green blue andb] in *; py_split;
    cbn [andb] in *; qlra.
Qed.

(** A point placed at a non-negative distance [d] from a tower is at
    planar distance [d] from it. *)
Lemma planar_distance_placed (origin : vec3) (p : point) (d : Q) (a : R) :
  0 <= d ->
  px p = (Q2R (at0 origin) + Q2R d * cos a)%R ->
  py p = (Q2R (at1 origin) + Q2R d * sin a)%R ->
  planar_distance origin p = Q2R d.
Proof.
  intros Hd Hx Hy.
  assert (Hc : (0 <= Q2R d)%R).
  { replace 0%R with (Q2R 0) by (unfold Q2R; cbn; Lra.lra).
    apply Qle_Rle. exact Hd. }
  unfold planar_distance. rewrite Hx, Hy.
  pose proof (sin2_cos2 a) as Hsc. unfold Rsqr in Hsc.
  match goal with
  | |- sqrt ?e = _ =>
      replace e
        with (Q2R d * Q2R d * (sin a * sin a + cos a * cos a))%R by ring
  end.
  rewrite Hsc, Rmult_1_r. apply sqrt_square. exact Hc.
Qed.

(** X10.  With [0 <= MIN_SIGNAL_RANGE < MAX_SIGNAL_RANGE], the colour
    of every emitted point encodes the distance at which the point
    was placed: the point is the storage of a position at planar
    distance [d] from one of the scanned towers, [d] lies between the
    two ranges, and the strength the statistics stage recovers from
    the colour is the linear interpolation at [d]. *)
Theorem color_encodes_distance (cfg : config) (g : rng) (s : stage) :
  0 <= MIN_SIGNAL_RANGE cfg ->
  MIN_SIGNAL_RANGE cfg < MAX_SIGNAL_RANGE cfg ->
  Forall2
    (fun p c =>
       exists origin q d,
         In origin (scan_towers (prims s)) /\
         p = Vec3f_of q /\
         MIN_SIGNAL_RANGE cfg <= d <= MAX_SIGNAL_RANGE cfg /\
         planar_distance origin q = Q2R d /\
         reverse_signal c
         == 100 * (MAX_SIGNAL_RANGE cfg - d)
            / (MAX_SIGNAL_RANGE cfg - MIN_SIGNAL_RANGE cfg))
    (emitted_points (fst (generate_heatmap cfg g s)))
    (emitted_colors (fst (generate_heatmap cfg g s))).
Proof.
  intros H0 Hlt.
  eapply Forall2_impl; [| apply pass_samples].
  intros p c (origin & i & n & Ho & _ & v & Ev & -> & q & Hp & Hx & Hy & _).
  set (d := sample_distance (draws g) (MAX_SIGNAL_RANGE cfg)
              (MIN_SIGNAL_RANGE cfg) i n) in *.
  assert (Hd : MIN_SIGNAL_RANGE cfg <= d <= MAX_SIGNAL_RANGE cfg)
    by (apply clamp_bounds; Lqa.lra).
  exists origin, q, d.
  split; [exact Ho |]. split; [exact Hp |]. split; [exact Hd |].
  split.
  - eapply planar_distance_placed; [Lqa.lra | exact Hx | exact Hy].
  - rewrite reverse_gradient_inside
      by (eapply signal_strength_in_range; exact Ev).
    apply signal_strength_inside; assumption.
Qed.

Lemma color_encodes_distance_witness :
  Forall2
    (fun p c =>
       exists origin q d,
         In origin (scan_towers (prims one_tower_stage)) /\
         p = Vec3f_of q /\
         5 <= d <= 150 /\
         planar_distance origin q = Q2R d /\
         reverse_signal c == 100 * (150 - d) / (150 - 5))
    (emitted_points
       (fst (generate_heatmap small_config half_rng one_tower_stage)))
    (emitted_colors
       (fst (generate_heatmap small_config half_rng one_tower_stage))).
Proof.
  apply (color_encodes_distance small_config half_rng one_tower_stage).
  - discriminate.
  - reflexivity.
Defined.

(** X11.  When the random source draws in [[0,1]], the height of
    every emitted point is the storage of a height [h] between 35 and
    5 below one of the scanned towers (a tower sits 5 above its
    prim); a point whose colour has red below 1 was placed at least
    25 below the tower, a point whose colour has green below 1 at
    most 25 below. *)
Theorem sample_heights_layered (cfg : config) (g : rng) (s : stage) :
  unit_draws (draws g) ->
  Forall2
    (fun p c =>
       exists origin h,
         In origin (scan_towers (prims s)) /\
         pz p = f32Q h /\
         at2 origin - 35 <= h /\
         h <= at2 origin - 5 /\
         (red c < 1 -> h <= at2 origin - 25) /\
         (green c < 1 -> at2 origin - 25 <= h))
    (emitted_points (fst (generate_heatmap cfg g s)))
    (emitted_colors (fst (generate_heatmap cfg g s))).
Proof.
  intro Hu.
  eapply Forall2_impl; [| apply pass_samples].
  intros p c (origin & i & n & Ho & _ & v & Ev & -> & q & -> & _ & _ & Hz).
  exists origin, (pz q). split; [exact Ho |]. split; [reflexivity |].
  apply signal_strength_in_range in Ev.
  pose proof (Hu (S (S n))) as Hd.
  rewrite !Hz. clear Hz.
  revert Hd. generalize (draws g (S (S n))). intros w Hw.
  unfold uniform_value.
  unfold calculate_gradient_color, strong_branch, weak_branch,
    Py.max, Py.min.
  py_split; cbn [red green blue]; repeat split; intros; qlra.
Qed.

Lemma sample_heights_layered_witness :
  unit_draws (draws half_rng) /\
  Forall2
    (fun p c =>
       exists origin h,
         In origin (scan_towers (prims one_tower_stage)) /\
         pz p = f32Q h /\
         at2 origin - 35 <= h /\
         h <= at2 origin - 5 /\
         (red c < 1 -> h <= at2 origin - 25) /\
         (green c < 1 -> at2 origin - 25 <= h))
    (emitted_points
       (fst (generate_heatmap small_config half_rng one_tower_stage)))
    (emitted_colors
       (fst (generate_heatmap small_config half_rng one_tower_stage))).
Proof.
  assert (H : unit_draws (draws half_rng))
    by (intro n; split; discriminate).
  split; [exact H |].
  exact (sample_heights_layered small_config half_rng one_tower_stage H).
Defined.

(** ** Rings *)

Lemma ring_progress_unit (ring_idx : nat) :
  (ring_idx < 20)%nat ->
  0 <= inject_Z (Z.of_nat ring_idx) / inject_Z (num_rings - 1) <= 1.
Proof.
  intro H. change (inject_Z (num_rings - 1)) with 19.
  split.
  - apply Qle_shift_div_l; [reflexivity |].
    unfold Qle. cbn. lia.
  - apply Qle_shift_div_r; [reflexivity |].
    unfold Qle. cbn. lia.
Qed.

Lemma ring_distance_bounds (max_range min_range : Q) (ring_idx : nat) :
  min_range <= max_range -> (ring_idx < 20)%nat ->
  min_range <= ring_distance max_range min_range ring_idx <= max_range.
Proof.
  intros H Hi. unfold ring_distance.
  pose proof (ring_progress_unit ring_idx Hi) as Ht.
  revert Ht.
  generalize (inject_Z (Z.of_nat ring_idx) / inject_Z (num_rings - 1)).
  intros t [Ht0 Ht1].
  assert (H1 : 0 <= (max_range - min_range) * t)
    by (apply Qmult_le_0_compat; Lqa.lra).
  assert (H2 : 0 <= (max_range - min_range) * (1 - t))
    by (apply Qmult_le_0_compat; Lqa.lra).
  Lqa.lra.
Qed.

(** X12.  The ring loop places ring [i] at the base distance
    [min + (max - min) * i / 19]: ring 0 at [min_range], ring 19 at
    [max_range], consecutive rings [(max - min) / 19] apart, and with
    [min_range <= max_range] every ring between the two ranges. *)
Theorem rings_evenly_spaced (origin : vec3) (base_height : Q)
    (points_per_ring : Z) (max_range min_range : Q) :
  (forall ring_idx st,
     ring_body origin base_height points_per_ring max_range min_range
       ring_idx st
     = for_each (range points_per_ring)
         (fun _ => sample_body origin base_height
                     (ring_distance max_range min_range ring_idx)
                     max_range min_range) st) /\
  ring_distance max_range min_range 0 == min_range /\
  ring_distance max_range min_range 19 == max_range /\
  (forall ring_idx,
     ring_distance max_range min_range (S ring_idx)
     - ring_distance max_range min_range ring_idx
     == (max_range - min_range) / 19) /\
  (min_range <= max_range ->
   forall ring_idx, (ring_idx < 20)%nat ->
     min_range <= ring_distance max_range min_range ring_idx <= max_range).
Proof.
  split; [| split; [| split; [| split]]].
  - intros ring_idx st. unfold ring_body, bind, try_.
    change (1 <? num_rings)%Z with true. cbv iota.
    rewrite div_ok by apply ring_divisor_nonzero. reflexivity.
  - unfold ring_distance. change (inject_Z (num_rings - 1)) with 19.
    change (inject_Z (Z.of_nat 0)) with 0. field.
  - unfold ring_distance. change (inject_Z (num_rings - 1)) with 19.
    change (inject_Z (Z.of_nat 19)) with 19. field.
  - intro ring_idx. unfold ring_distance.
    change (inject_Z (num_rings - 1)) with 19.
    rewrite Nat2Z.inj_succ. unfold Z.succ. rewrite inject_Z_plus.
    change (inject_Z 1) with 1. field.
  - intros H ring_idx Hi. apply ring_distance_bounds; assumption.
Qed.

Lemma rings_evenly_spaced_witness :
  5 <= ring_distance 150 5 7 <= 150.
Proof.
  refine (proj2 (proj2 (proj2 (proj2
            (rings_evenly_spaced (GfVec3f 0 0 5) 0 20 150 5)))) _ 7%nat _).
  - discriminate.
  - repeat constructor.
Defined.

(** X13.  With [MIN_SIGNAL_RANGE <= MAX_SIGNAL_RANGE] and draws in
    [[0,1]], every emitted point is the storage of a position placed
    at a signed distance [d] from one of the scanned towers, so at
    planar distance [|d|], where [d] differs by at most 5 from the
    base distance of one of the 20 rings. *)
Theorem samples_near_rings (cfg : config) (g : rng) (s : stage) :
  unit_draws (draws g) ->
  MIN_SIGNAL_RANGE cfg <= MAX_SIGNAL_RANGE cfg ->
  Forall
    (fun p =>
       exists origin ring_idx q d,
         In origin (scan_towers (prims s)) /\
         (ring_idx < 20)%nat /\
         p = Vec3f_of q /\
         planar_distance origin q = Rabs (Q2R d) /\
         Qabs (d - ring_distance (MAX_SIGNAL_RANGE cfg)
                     (MIN_SIGNAL_RANGE cfg) ring_idx) <= 5)
    (emitted_points (fst (generate_heatmap cfg g s))).
Proof.
  intros Hu Hle.
  pose proof (pass_samples cfg g s) as F.
  induction F as [| p c pts cs (origin & i & n & Ho & Hi & v & _ & _ & q
                                  & Hp & Hx & Hy & _) _ IH];
    constructor; [| exact IH].
  exists origin, i, q,
    (sample_distance (draws g) (MAX_SIGNAL_RANGE cfg) (MIN_SIGNAL_RANGE cfg)
       i n).
  split; [exact Ho |]. split; [exact Hi |]. split; [exact Hp |].
  split.
  - eapply planar_distance_signed; [exact Hx | exact Hy].
  - pose proof (ring_distance_bounds _ _ i Hle Hi) as Hr.
    pose proof (Hu (S n)) as Hd.
    unfold sample_distance, uniform_value.
    revert Hr Hd.
    generalize (ring_distance (MAX_SIGNAL_RANGE cfg)
                  (MIN_SIGNAL_RANGE cfg) i) (draws g (S n)).
    intros r w Hr Hw.
    apply Qabs_Qle_condition.
    unfold Py.max, Py.min. py_split; Lqa.lra.
Qed.

Lemma samples_near_rings_witness :
  Forall
    (fun p =>
       exists origin ring_idx q d,
         In origin (scan_towers (prims one_tower_stage)) /\
         (ring_idx < 20)%nat /\
         p = Vec3f_of q /\
         planar_distance origin q = Rabs (Q2R d) /\
         Qabs (d - ring_distance 150 5 ring_idx) <= 5)
    (emitted_points
       (fst (generate_heatmap small_config half_rng one_tower_stage))).
Proof.
  apply (samples_near_rings small_config half_rng one_tower_stage).
  - intro n; split; discriminate.
  - discriminate.
Defined.

(** ** The random source *)

(** X14.  A generation that returns has read exactly three draws per
    emitted point, in order, and has not changed the sequence of
    draws. *)
Theorem three_draws_per_sample (cfg : config) (towers : list vec3)
    (st : gen_state) (u : unit) (st' : gen_state) :
  generate_points cfg towers st = Ok (u, st') ->
  draws (rand st') = draws (rand st) /\
  (List.length (final_points st')
   = List.length (final_points st)
     + List.length towers * points_of_tower (POINTS_PER_TOWER cfg))%nat /\
  (cursor (rand st')
   = cursor (rand st)
     + 3 * (List.length (final_points st')
            - List.length (final_points st)))%nat.
Proof.
  intro H. apply generate_points_emits in H.
  destruct H as (pts & cs & Hp & _ & L & _ & D & C).
  rewrite Hp, length_app, L. repeat split; [exact D | lia].
Qed.

Lemma three_draws_per_sample_witness :
  exists st',
    generate_points small_config [GfVec3f 0 0 5] (initial_gen_state half_rng)
    = Ok (tt, st') /\
    cursor (rand st') = 120%nat.
Proof.
  assert (Hok : is_ok (generate_points small_config [GfVec3f 0 0 5]
                         (initial_gen_state half_rng)) = true)
    by (vm_compute; reflexivity).
  destruct (generate_points small_config [GfVec3f 0 0 5]
              (initial_gen_state half_rng)) as [[[] st'] | e] eqn:E;
    [| discriminate Hok].
  exists st'. split; [reflexivity |].
  destruct (three_draws_per_sample small_config [GfVec3f 0 0 5]
              (initial_gen_state half_rng) tt st' E) as (_ & L & C).
  rewrite C, L. reflexivity.
Defined.

(** ** The scene prims *)

Lemma generate_heatmap_prims (cfg : config) (g : rng) (s : stage) :
  prims (fst (generate_heatmap cfg g s)) = prims s.
Proof.
  unfold generate_heatmap.
  destruct (scan_towers (prims s)); [reflexivity |].
  destruct (generate_points _ _ _) as [[u st] | e]; [| reflexivity].
  destruct (statistics _ _); reflexivity.
Qed.

(** ** Inverted ranges *)

Lemma inverted_strength (d mx mn v : Q) :
  mx < mn -> calculate_signal_strength d mx mn = Ok v -> v == 100.
Proof.
  intros H E.
  rewrite calculate_signal_strength_ok in E by Lqa.lra.
  injection E as <-.
  assert (Hc : Py.max mn (Py.min mx d) == mn)
    by (unfold Py.max, Py.min; py_split; Lqa.lra).
  set (q := 100 * (mx - Py.max mn (Py.min mx d)) / (mx - mn)).
  assert (Hq : q == 100).
  { unfold q. rewrite Hc. field. Lqa.lra. }
  rewrite (clamp_inside 0 100 q) by (rewrite Hq; split; discriminate).
  exact Hq.
Qed.

(** X16.  With [MAX_SIGNAL_RANGE < MIN_SIGNAL_RANGE] the pass does
    not fail on the ranges: every emitted colour is pure green, and
    every emitted point is the storage of a position placed at the
    signed distance [MIN_SIGNAL_RANGE] from one of the towers. *)
Theorem inverted_ranges_flat (cfg : config) (g : rng) (s : stage) :
  MAX_SIGNAL_RANGE cfg < MIN_SIGNAL_RANGE cfg ->
  Forall (fun c => c =c= Vec3f 0 1 0)
    (emitted_colors (fst (generate_heatmap cfg g s))) /\
  Forall
    (fun p =>
       exists origin q,
         In origin (scan_towers (prims s)) /\
         p = Vec3f_of q /\
         planar_distance origin q = Rabs (Q2R (MIN_SIGNAL_RANGE cfg)))
    (emitted_points (fst (generate_heatmap cfg g s))).
Proof.
  intro H.
  pose proof (pass_samples cfg g s) as F.
  split.
  - induction F as [| p c pts cs (origin & i & n & _ & _ & v & Ev & -> & _)
                      _ IH];
      constructor; [| exact IH].
    apply (inverted_strength _ _ _ _ H) in Ev.
    unfold color_eq, calculate_gradient_color, strong_branch, weak_branch,
      Py.max, Py.min.
    py_split; cbn [red green blue]; repeat split; qlra.
  - induction F as [| p c pts cs (origin & i & n & Ho & _ & v & _ & _ & q
                                    & Hp & Hx & Hy & _) _ IH];
      constructor; [| exact IH].
    exists origin, q. split; [exact Ho |]. split; [exact Hp |].
    assert (Hc : sample_distance (draws g) (MAX_SIGNAL_RANGE cfg)
                   (MIN_SIGNAL_RANGE cfg) i n == MIN_SIGNAL_RANGE cfg)
      by (unfold sample_distance, Py.max, Py.min; py_split; Lqa.lra).
    rewrite <- (Qeq_eqR _ _ Hc).
    eapply planar_distance_signed; [exact Hx | exact Hy].
Qed.

Lemma inverted_ranges_flat_witness :
  Forall (fun c => c =c= Vec3f 0 1 0)
    (emitted_colors
       (fst (generate_heatmap
               {| MAX_SIGNAL_RANGE := 50;
                  MIN_SIGNAL_RANGE := 60;
                  POINTS_PER_TOWER := 40;
                  POINT_SIZE := 4 |} half_rng one_tower_stage))).
Proof.
  refine (proj1 (inverted_ranges_flat
                   {| MAX_SIGNAL_RANGE := 50;
                      MIN_SIGNAL_RANGE := 60;
                      POINTS_PER_TOWER := 40;
                      POINT_SIZE := 4 |} half_rng one_tower_stage _)).
  reflexivity.
Defined.

(** ** The printed statistics *)

Lemma py_min_le (a b : Q) : Py.min a b <= a /\ Py.min a b <= b.
Proof. unfold Py.min. py_split; split; Lqa.lra. Qed.

Lemma py_max_ge (a b : Q) : a <= Py.max a b /\ b <= Py.max a b.
Proof. unfold Py.max. py_split; split; Lqa.lra. Qed.

Lemma fold_min_below (l : list Q) (x : Q) :
  fold_left Py.min l x <= x /\
  forall y, In y l -> fold_left Py.min l x <= y.
Proof.
  revert x. induction l as [| a l IH]; intro x; cbn [fold_left].
  - split; [Lqa.lra | intros y []].
  - destruct (IH (Py.min x a)) as [H1 H2].
    pose proof (py_min_le x a) as [Hx Ha].
    split; [Lqa.lra |].
    intros y [<- | Hy]; [Lqa.lra | apply H2; exact Hy].
Qed.

Lemma fold_max_above (l : list Q) (x : Q) :
  x <= fold_left Py.max l x /\
  forall y, In y l -> y <= fold_left Py.max l x.
Proof.
  revert x. induction l as [| a l IH]; intro x; cbn [fold_left].
  - split; [Lqa.lra | intros y []].
  - destruct (IH (Py.max x a)) as [H1 H2].
    pose proof (py_max_ge x a) as [Hx Ha].
    split; [Lqa.lra |].
    intros y [<- | Hy]; [Lqa.lra | apply H2; exact Hy].
Qed.

Lemma fold_min_bounded (l : list Q) (x lo : Q) :
  lo <= x -> (forall y, In y l -> lo <= y) -> lo <= fold_left Py.min l x.
Proof.
  revert x. induction l as [| a l IH]; intros x Hx Hl; cbn [fold_left].
  - exact Hx.
  - apply IH.
    + assert (lo <= a) by (apply Hl; now left).
      unfold Py.min. py_split; Lqa.lra.
    + intros y Hy. apply Hl. now right.
Qed.

Lemma fold_max_bounded (l : list Q) (x hi : Q) :
  x <= hi -> (forall y, In y l -> y <= hi) -> fold_left Py.max l x <= hi.
Proof.
  revert x. induction l as [| a l IH]; intros x Hx Hl; cbn [fold_left].
  - exact Hx.
  - apply IH.
    + assert (a <= hi) by (apply Hl; now left).
      unfold Py.max. py_split; Lqa.lra.
    + intros y Hy. apply Hl. now right.
Qed.

Lemma len_cons {A : Type} (a : A) (l : list A) : len (a :: l) == len l + 1.
Proof.
  unfold len. cbn [List.length]. rewrite Nat2Z.inj_succ.
  unfold Z.succ. rewrite inject_Z_plus. reflexivity.
Qed.

Lemma fold_sum_bounds (l : list Q) (a lo hi : Q) :
  (forall y, In y l -> lo <= y <= hi) ->
  a + len l * lo <= fold_left Qplus l a <= a + len l * hi.
Proof.
  revert a. induction l as [| y l IH]; intros a Hl; cbn [fold_left].
  - change (len (@nil Q)) with 0. Lqa.lra.
  - assert (Hy : lo <= y <= hi) by (apply Hl; now left).
    assert (Hr : forall z, In z l -> lo <= z <= hi)
      by (intros z Hz; apply Hl; now right).
    specialize (IH (a + y) Hr).
    rewrite !(len_cons y l).
    Lqa.lra.
Qed.

Lemma nat_Q_plus (a b : nat) : nat_Q (a + b) == nat_Q a + nat_Q b.
Proof.
  unfold nat_Q. rewrite Nat2Z.inj_add, inject_Z_plus. reflexivity.
Qed.

(** The fields of a report, read off the statistics block. *)
Lemma statistics_fields (points : list point) (colors : list color)
    (r : report) :
  statistics points colors = Ok r ->
  exists x rest,
    map reverse_signal colors = x :: rest /\
    min_signal r = fold_left Py.min rest x /\
    max_signal r = fold_left Py.max rest x /\
    avg_signal r = sum_list (x :: rest) / len (x :: rest) /\
    ~ nat_Q (List.length points) == 0 /\
    red_percent r
    = nat_Q (count_if is_red (x :: rest)) / nat_Q (List.length points) * 100 /\
    yellow_percent r
    = nat_Q (count_if is_yellow (x :: rest)) / nat_Q (List.length points)
      * 100 /\
    green_percent r
    = nat_Q (count_if is_green (x :: rest)) / nat_Q (List.length points)
      * 100.
Proof.
  unfold statistics.
  destruct (map reverse_signal colors) as [| x rest]; [discriminate |].
  cbn [min_list max_list and_then].
  unfold Py.div.
  destruct (Py.eqb (len (x :: rest)) 0); [discriminate |].
  cbn [and_then].
  destruct (eqb_cases (nat_Q (List.length points)) 0) as [[_ E] | [Hn E]];
    rewrite E; cbn [and_then]; [discriminate |].
  intro H. injection H as <-.
  exists x, rest. cbn. repeat split; try reflexivity. exact Hn.
Qed.

Lemma Forall2_right {A B : Type} (P : A -> B -> Prop) (l : list A)
    (l' : list B) :
  Forall2 P l l' -> forall b, In b l' -> exists a, In a l /\ P a b.
Proof.
  induction 1 as [| a b l l' Hab _ IH]; intros c Hc; [destruct Hc |].
  destruct Hc as [<- | Hc].
  - exists a. split; [now left | exact Hab].
  - destruct (IH c Hc) as (a' & Ha' & Hp). exists a'. split; [now right | auto].
Qed.



(** ** How a pass ends *)

Lemma points_of_tower_zero (points_per_tower : Z) :
  (points_per_tower < 20)%Z -> points_of_tower points_per_tower = 0%nat.
Proof.
  intro H.
  destruct (Nat.eq_dec (points_of_tower points_per_tower) 0) as [E | E];
    [exact E |].
  apply points_of_tower_positive in E. lia.
Qed.

Lemma pass_value_error (cfg : config) (g : rng) (s : stage) :
  scan_towers (prims s) <> [] ->
  (POINTS_PER_TOWER cfg < 20)%Z ->
  snd (generate_heatmap cfg g s) = Raise ValueError.
Proof.
  intros Hne Hp.
  destruct (generate_points_total cfg (scan_towers (prims s))
              (initial_gen_state g) (or_introl Hp)) as [st E].
  rewrite (generate_heatmap_generated cfg g s tt st Hne E). cbn [snd].
  apply generated_lengths in E. destruct E as [Hl Hc].
  rewrite points_of_tower_zero, Nat.mul_0_r in Hl by exact Hp.
  rewrite Hl in Hc.
  apply length_zero_iff_nil in Hc. rewrite Hc. reflexivity.
Qed.

Lemma pass_zero_division (cfg : config) (g : rng) (s : stage) :
  scan_towers (prims s) <> [] ->
  (20 <= POINTS_PER_TOWER cfg)%Z ->
  MAX_SIGNAL_RANGE cfg == MIN_SIGNAL_RANGE cfg ->
  generate_heatmap cfg g s
  = (set_visualizer s fresh_points_prim, Raise ZeroDivisionError).
Proof.
  intros Hne Hp He.
  apply generate_heatmap_raised; [exact Hne |].
  destruct (scan_towers (prims s)) as [| t ts]; [contradiction |].
  apply generate_points_raises; assumption.
Qed.

Lemma pass_returns (cfg : config) (g : rng) (s : stage) :
  scan_towers (prims s) <> [] ->
  (20 <= POINTS_PER_TOWER cfg)%Z ->
  ~ MAX_SIGNAL_RANGE cfg == MIN_SIGNAL_RANGE cfg ->
  exists r,
    snd (generate_heatmap cfg g s) = Ok (Some r) /\
    total_points r
    = List.length (emitted_points (fst (generate_heatmap cfg g s))) /\
    total_points r
    = (List.length (scan_towers (prims s))
       * points_of_tower (POINTS_PER_TOWER cfg))%nat.
Proof.
  intros Hne Hp Hd.
  destruct (generate_points_total cfg (scan_towers (prims s))
              (initial_gen_state g) (or_intror Hd)) as [st E].
  rewrite (generate_heatmap_generated cfg g s tt st Hne E).
  cbn [fst snd emitted_points set_visualizer visualizer points_attr].
  apply generated_lengths in E. destruct E as [Hl Hc].
  assert (Hk : points_of_tower (POINTS_PER_TOWER cfg) <> 0%nat)
    by (apply points_of_tower_positive; exact Hp).
  assert (Hn : List.length (scan_towers (prims s)) <> 0%nat).
  { destruct (scan_towers (prims s)); [contradiction | discriminate]. }
  assert (Hcs : final_colors st <> []).
  { intro Hnil. rewrite Hnil, Hl in Hc. cbn [List.length] in Hc.
    symmetry in Hc. apply Nat.eq_mul_0 in Hc. destruct Hc; contradiction. }
  destruct (statistics_ok (final_points st) (final_colors st) Hcs
              (eq_sym Hc)) as (r & -> & _ & _ & _ & Ht).
  exists r. split; [reflexivity |]. split; [exact Ht |].
  rewrite Ht. exact Hl.
Qed.

(** Settles the equivalences once the outcome is known. *)
Ltac outcome_known :=
  repeat split; intros;
  try tauto; try lia; try congruence;
  try (match goal with
       | H : exists _, _ |- _ => destruct H as [? H]; congruence
       end);
  try (eexists; reflexivity).

(** X18.  How a pass ends is decided by three facts.  It returns
    without statistics exactly when the scan finds no tower; it ends
    in [ValueError] exactly when there is a tower and
    [POINTS_PER_TOWER < 20]; it ends in [ZeroDivisionError] exactly
    when there is a tower, [POINTS_PER_TOWER >= 20] and the two
    ranges are equal; and it prints statistics in the remaining
    case. *)
Theorem pass_outcome_classified (cfg : config) (g : rng) (s : stage) :
  (snd (generate_heatmap cfg g s) = Ok None <->
   scan_towers (prims s) = []) /\
  (snd (generate_heatmap cfg g s) = Raise ValueError <->
   scan_towers (prims s) <> [] /\ (POINTS_PER_TOWER cfg < 20)%Z) /\
  (snd (generate_heatmap cfg g s) = Raise ZeroDivisionError <->
   scan_towers (prims s) <> [] /\ (20 <= POINTS_PER_TOWER cfg)%Z /\
   MAX_SIGNAL_RANGE cfg == MIN_SIGNAL_RANGE cfg) /\
  ((exists r, snd (generate_heatmap cfg g s) = Ok (Some r)) <->
   scan_towers (prims s) <> [] /\ (20 <= POINTS_PER_TOWER cfg)%Z /\
   ~ MAX_SIGNAL_RANGE cfg == MIN_SIGNAL_RANGE cfg).
Proof.
  assert (Hd : scan_towers (prims s) <> [] \/ scan_towers (prims s) = []).
  { destruct (scan_towers (prims s));
      [right; reflexivity | left; discriminate]. }
  destruct Hd as [Hs | Hs].
  - destruct (Z_lt_dec (POINTS_PER_TOWER cfg) 20) as [Hp | Hp].
    + rewrite (pass_value_error cfg g s Hs Hp). outcome_known.
    + destruct (Qeq_dec (MAX_SIGNAL_RANGE cfg) (MIN_SIGNAL_RANGE cfg))
        as [He | He].
      * rewrite (pass_zero_division cfg g s Hs ltac:(lia) He). cbn [snd].
        outcome_known.
      * destruct (pass_returns cfg g s Hs ltac:(lia) He) as (r & -> & _).
        outcome_known.
  - rewrite (generate_heatmap_no_towers cfg g s Hs). cbn [snd].
    outcome_known.
Qed.

(** ** The control window *)

Lemma pass_not_value_error (cfg : config) (g : rng) (s : stage) :
  (20 <= POINTS_PER_TOWER cfg)%Z ->
  snd (generate_heatmap cfg g s) <> Raise ValueError.
Proof.
  intro Hp.
  assert (Hd : scan_towers (prims s) <> [] \/ scan_towers (prims s) = []).
  { destruct (scan_towers (prims s));
      [right; reflexivity | left; discriminate]. }
  destruct Hd as [Hs | Hs].
  - destruct (Qeq_dec (MAX_SIGNAL_RANGE cfg) (MIN_SIGNAL_RANGE cfg))
      as [He | He].
    + rewrite (pass_zero_division cfg g s Hs Hp He). discriminate.
    + destruct (pass_returns cfg g s Hs Hp He) as (r & -> & _). discriminate.
  - rewrite (generate_heatmap_no_towers cfg g s Hs). discriminate.
Qed.

Lemma on_refresh_clicked_fields (g : rng) (ss : session) :
  globals (on_refresh_clicked g ss) = globals ss /\
  usd_stage (on_refresh_clicked g ss)
  = fst (generate_heatmap (globals ss) g (usd_stage ss)) /\
  last_outcome (on_refresh_clicked g ss)
  = snd (generate_heatmap (globals ss) g (usd_stage ss)).
Proof.
  unfold on_refresh_clicked.
  destruct (generate_heatmap (globals ss) g (usd_stage ss)) as [s' o].
  repeat split.
Qed.

(** What one event keeps. *)
Lemma handle_keeps (s0 : stage) (ss : session) (e : ui_event) :
  within_slider e ->
  within_sliders (globals ss) /\
  prims (usd_stage ss) = prims s0 /\
  last_outcome ss <> Raise ValueError ->
  within_sliders (globals (handle ss e)) /\
  prims (usd_stage (handle ss e)) = prims s0 /\
  last_outcome (handle ss e) <> Raise ValueError.
Proof.
  intros He ((Hmax & Hmin & Hpts & Hsize) & Hp & Ho).
  destruct e as [v | v | n | v | g]; cbn [handle within_slider] in *.
  1-4: unfold within_sliders, set_globals, on_max_range_changed,
         on_min_range_changed, on_points_changed, on_size_changed;
       cbn [globals usd_stage last_outcome MAX_SIGNAL_RANGE MIN_SIGNAL_RANGE
              POINTS_PER_TOWER POINT_SIZE];
       repeat split; try assumption; try apply He; try apply Hmax;
       try apply Hmin; try apply Hpts; try apply Hsize.
  destruct (on_refresh_clicked_fields g ss) as (-> & -> & ->).
  split; [exact (conj Hmax (conj Hmin (conj Hpts Hsize))) |].
  split; [rewrite generate_heatmap_prims; exact Hp |].
  apply pass_not_value_error.
  destruct Hpts as [Hlo _]. cbn in Hlo. lia.
Qed.

(** X19.  From the start of the script on, as long as every slider
    event carries a value of its slider's range: the globals stay
    within the four slider ranges, so the minimum range never exceeds
    the maximum range; the scene prims are never changed; and no
    pass, the first included, ends in [ValueError]. *)
Theorem session_stays_within_sliders (g : rng) (s : stage)
    (events : list ui_event) :
  Forall within_slider events ->
  within_sliders (globals (fold_left handle events (run_script g s))) /\
  MIN_SIGNAL_RANGE (globals (fold_left handle events (run_script g s)))
  <= MAX_SIGNAL_RANGE (globals (fold_left handle events (run_script g s))) /\
  prims (usd_stage (fold_left handle events (run_script g s))) = prims s /\
  last_outcome (fold_left handle events (run_script g s))
  <> Raise ValueError.
Proof.
  intro Hev.
  assert (Hinit : within_sliders (globals (run_script g s)) /\
                  prims (usd_stage (run_script g s)) = prims s /\
                  last_outcome (run_script g s) <> Raise ValueError).
  { unfold run_script.
    destruct (on_refresh_clicked_fields g
                {| globals := default_config;
                   usd_stage := s;
                   last_outcome := Ok None |}) as (-> & -> & ->).
    cbn [globals usd_stage].
    split; [| split].
    - unfold within_sliders, in_float_slider, in_int_slider. cbn.
      repeat split; try discriminate; lia.
    - apply generate_heatmap_prims.
    - apply pass_not_value_error. cbn. lia. }
  assert (Hall : within_sliders
                   (globals (fold_left handle events (run_script g s))) /\
                 prims (usd_stage (fold_left handle events (run_script g s)))
                 = prims s /\
                 last_outcome (fold_left handle events (run_script g s))
                 <> Raise ValueError).
  { revert Hinit. generalize (run_script g s).
    induction Hev as [| e events He _ IH]; intros ss Hss; [exact Hss |].
    cbn [fold_left]. apply IH. apply handle_keeps; assumption. }
  destruct Hall as (Hw & Hp & Ho).
  split; [exact Hw |]. split; [| split; assumption].
  destruct Hw as ((Hmax & _) & (_ & Hmin) & _).
  cbn in Hmin, Hmax. Lqa.lra.
Qed.

Lemma session_stays_within_sliders_witness :
  Forall within_slider corner_events /\
  within_sliders
    (globals (fold_left handle corner_events
                (run_script half_rng one_tower_stage))) /\
  last_outcome (fold_left handle corner_events
                  (run_script half_rng one_tower_stage))
  <> Raise ValueError.
Proof.
  assert (H : Forall within_slider corner_events).
  { unfold corner_events. repeat constructor; cbn; try discriminate; lia. }
  split; [exact H |].
  destruct (session_stays_within_sliders half_rng one_tower_stage
              corner_events H) as (Hw & _ & _ & Ho).
  split; [exact Hw | exact Ho].
Defined.

Lemma points_of_tower_slider (points_per_tower : Z) :
  in_int_slider points_slider points_per_tower ->
  (100 <= points_of_tower points_per_tower <= 4000)%nat.
Proof.
  intros [Hlo Hhi]. cbn in Hlo, Hhi.
  unfold points_of_tower, num_rings.
  pose proof (Z.div_le_lower_bound points_per_tower 20 5).
  pose proof (Z.div_le_upper_bound points_per_tower 20 200).
  lia.
Qed.

(** X20.  With the globals within the slider ranges and at least one
    visible tower, the two ranges are equal only when both sliders
    are at 50; a click on Refresh then ends in [ZeroDivisionError]
    with no point written, and in every other case it prints
    statistics over all emitted points, between 100 and 4000 per
    tower. *)
Theorem refresh_within_sliders (ss : session) (g : rng) :
  within_sliders (globals ss) ->
  scan_towers (prims (usd_stage ss)) <> [] ->
  (MAX_SIGNAL_RANGE (globals ss) == MIN_SIGNAL_RANGE (globals ss) <->
   MAX_SIGNAL_RANGE (globals ss) == 50 /\
   MIN_SIGNAL_RANGE (globals ss) == 50) /\
  (MAX_SIGNAL_RANGE (globals ss) == MIN_SIGNAL_RANGE (globals ss) ->
   last_outcome (handle ss (RefreshClicked g)) = Raise ZeroDivisionError /\
   emitted_points (usd_stage (handle ss (RefreshClicked g))) = []) /\
  (~ MAX_SIGNAL_RANGE (globals ss) == MIN_SIGNAL_RANGE (globals ss) ->
   exists r,
     last_outcome (handle ss (RefreshClicked g)) = Ok (Some r) /\
     total_points r
     = List.length
         (emitted_points (usd_stage (handle ss (RefreshClicked g)))) /\
     (100 * List.length (scan_towers (prims (usd_stage ss)))
      <= total_points r
      <= 4000 * List.length (scan_towers (prims (usd_stage ss))))%nat).
Proof.
  intros ((Hmax & _) & (_ & Hmin) & Hpts & _) Hs.
  cbn in Hmax, Hmin.
  assert (Hp : (20 <= POINTS_PER_TOWER (globals ss))%Z)
    by (destruct Hpts as [Hlo _]; cbn in Hlo; lia).
  cbn [handle].
  destruct (on_refresh_clicked_fields g ss) as (_ & -> & ->).
  split; [split; [intro He; split; Lqa.lra | intros [H1 H2]; Lqa.lra] |].
  split.
  - intro He.
    rewrite (pass_zero_division (globals ss) g (usd_stage ss) Hs Hp He).
    split; reflexivity.
  - intro He.
    destruct (pass_returns (globals ss) g (usd_stage ss) Hs Hp He)
      as (r & Ho & Ht & Hn).
    exists r. split; [exact Ho |]. split; [exact Ht |].
    pose proof (points_of_tower_slider _ Hpts) as Hk.
    rewrite Hn. nia.
Qed.

Lemma refresh_within_sliders_witness :
  within_sliders (globals started_session) /\
  scan_towers (prims (usd_stage started_session)) <> [] /\
  exists r,
    last_outcome (handle started_session (RefreshClicked half_rng))
    = Ok (Some r) /\
    total_points r
    = List.length
        (emitted_points
           (usd_stage (handle started_session (RefreshClicked half_rng)))).
Proof.
  assert (Hg : globals started_session = default_config).
  { unfold started_session, run_script.
    exact (proj1 (on_refresh_clicked_fields _ _)). }
  assert (Hp : prims (usd_stage started_session) = prims one_tower_stage).
  { unfold started_session, run_script.
    rewrite (proj1 (proj2 (on_refresh_clicked_fields _ _))).
    apply generate_heatmap_prims. }
  assert (Hw : within_sliders (globals started_session)).
  { rewrite Hg. unfold within_sliders, in_float_slider, in_int_slider. cbn.
    repeat split; try discriminate; lia. }
  assert (Hs : scan_towers (prims (usd_stage started_session)) <> []).
  { rewrite Hp. discriminate. }
  split; [exact Hw |]. split; [exact Hs |].
  destruct (refresh_within_sliders started_session half_rng Hw Hs)
    as (_ & _ & Hr).
  destruct Hr as (r & Ho & Ht & _).
  - rewrite Hg. discriminate.
  - exists r. split; [exact Ho | exact Ht].
Defined.

(** ** Size of the output *)

(** X21.  Whatever the configuration, the stage and the draws, and
    however the pass ends, it never emits more than
    [POINTS_PER_TOWER] points per scanned tower (none when that
    number is not positive), and the count is a multiple of 20. *)
Theorem output_size_bounded (cfg : config) (g : rng) (s : stage) :
  (Z.of_nat (List.length (emitted_points (fst (generate_heatmap cfg g s))))
   <= Z.of_nat (List.length (scan_towers (prims s)))
      * Z.max 0 (POINTS_PER_TOWER cfg))%Z /\
  exists k,
    List.length (emitted_points (fst (generate_heatmap cfg g s)))
    = (20 * k)%nat.
Proof.
  assert (Hd : scan_towers (prims s) <> [] \/ scan_towers (prims s) = []).
  { destruct (scan_towers (prims s));
      [right; reflexivity | left; discriminate]. }
  destruct Hd as [Hs | Hs].
  - destruct (generate_points cfg (scan_towers (prims s))
                (initial_gen_state g)) as [[u st] | e] eqn:E.
    + rewrite (generate_heatmap_generated cfg g s u st Hs E).
      cbn [fst emitted_points set_visualizer visualizer points_attr].
      apply generated_lengths in E. destruct E as [-> _].
      split.
      * rewrite Nat2Z.inj_mul.
        apply Z.mul_le_mono_nonneg_l; [lia |].
        destruct (Z_lt_dec (POINTS_PER_TOWER cfg) 20) as [Hp | Hp].
        -- rewrite points_of_tower_zero by exact Hp. lia.
        -- rewrite points_of_tower_Z by lia.
           pose proof (Z.mod_pos_bound (POINTS_PER_TOWER cfg) 20). lia.
      * exists (List.length (scan_towers (prims s))
                * Z.to_nat (POINTS_PER_TOWER cfg / num_rings))%nat.
        unfold points_of_tower. change (Z.to_nat num_rings) with 20%nat.
        lia.
    + rewrite (generate_heatmap_raised cfg g s e Hs E).
      cbn [fst emitted_points set_visualizer visualizer points_attr
             fresh_points_prim List.length].
      split; [lia | exists 0%nat; reflexivity].
  - rewrite (generate_heatmap_no_towers cfg g s Hs).
    cbn [fst emitted_points set_visualizer visualizer points_attr
           List.length].
    split; [lia | exists 0%nat; reflexivity].
Qed.

(** ** The first pass *)

(** X22.  The pass the script makes when it is run, with the default
    settings, returns normally for every stage and all draws: without
    statistics exactly when the stage has no visible tower, and
    otherwise with statistics over 400 points per tower. *)
Theorem first_pass_returns (g : rng) (s : stage) :
  (scan_towers (prims s) = [] ->
   last_outcome (run_script g s) = Ok None) /\
  (scan_towers (prims s) <> [] ->
   exists r,
     last_outcome (run_script g s) = Ok (Some r) /\
     total_points r = (List.length (scan_towers (prims s)) * 400)%nat /\
     emitted_widths (usd_stage (run_script g s))
     = repeat 4 (total_points r)).
Proof.
  unfold run_script.
  destruct (on_refresh_clicked_fields g
              {| globals := default_config;
                 usd_stage := s;
                 last_outcome := Ok None |}) as (_ & -> & ->).
  cbn [globals usd_stage].
  split.
  - intro Hs. rewrite (generate_heatmap_no_towers _ g s Hs). reflexivity.
  - intro Hs.
    destruct (generate_points_total default_config (scan_towers (prims s))
                (initial_gen_state g)) as [st E].
    { right. discriminate. }
    rewrite (generate_heatmap_generated default_config g s tt st Hs E).
    cbn [fst snd emitted_widths set_visualizer visualizer widths_attr].
    apply generated_lengths in E. destruct E as [Hl Hc].
    change (points_of_tower (POINTS_PER_TOWER default_config))
      with 400%nat in Hl.
    assert (Hcs : final_colors st <> []).
    { intro Hnil. rewrite Hnil, Hl in Hc. cbn [List.length] in Hc.
      destruct (scan_towers (prims s)); [contradiction |].
      cbn [List.length] in Hc. lia. }
    destruct (statistics_ok (final_points st) (final_colors st) Hcs
                (eq_sym Hc)) as (r & -> & _ & _ & _ & Ht).
    exists r. split; [reflexivity |].
    split; [rewrite Ht; exact Hl |].
    rewrite Ht. reflexivity.
Qed.

Lemma first_pass_returns_witness :
  exists r,
    last_outcome (run_script half_rng one_tower_stage) = Ok (Some r) /\
    total_points r = 400%nat.
Proof.
  destruct (proj2 (first_pass_returns half_rng one_tower_stage))
    as (r & Ho & Ht & _).
  - discriminate.
  - exists r. split; [exact Ho | exact Ht].
Defined.
